(** * godot-export: the export, packaging and relocation pipeline

    A shallow embedding of [src/godot.ts], [src/file.ts] and
    [src/constants.ts] and the properties of the pipeline that the
    design document states about them.

    Conventions.
    - A JavaScript string is a [string]; each [ascii] stands for one code
      unit below 256 (so the alphabet is Latin-1).  A string is "truthy"
      when it is not empty.
    - [path] is Node's POSIX [path] module (the action runs on Linux
      runners); its functions are transcribed below.
    - Side effects are recorded, in program order, as a list of [action]s.
      What the environment answers (exit statuses, whether a directory
      can be created or a copy goes through, directory listings, file
      existence) is read from an [Env] whose answers may depend on
      everything done so far. *)

From Stdlib Require Import String Ascii List ZArith Bool Lia.
From stdpp Require Import base option list gmap strings.

Import ListNotations.
Local Open Scope string_scope.
Local Open Scope list_scope.

Set Default Proof Using "Type".
Set Warnings "-register-all".

(** ** JavaScript strings *)

Module Js.

(** Truthiness of a string value: [''] is falsy. *)
Definition truthy (s : string) : bool := negb (String.eqb s "").

(** Truthiness of a possibly [undefined] string. *)
Definition truthy_opt (o : option string) : bool :=
  match o with
  | Some s => truthy s
  | None => false
  end.

Fixpoint drop (n : nat) (s : string) : string :=
  match n, s with
  | O, _ => s
  | S n', String _ s' => drop n' s'
  | S _, EmptyString => EmptyString
  end.

(** [s.replace(pat, rep)] with a string pattern: the first occurrence
    only.  (The replacement strings used by the sources contain no [$].) *)
Fixpoint replace (pat rep s : string) : string :=
  if String.prefix pat s then rep +:+ drop (String.length pat) s
  else match s with
       | EmptyString => EmptyString
       | String c s' => String c (replace pat rep s')
       end.

Definition code (c : ascii) : nat := nat_of_ascii c.

(** [toLowerCase] on code units below 256: A-Z, and the Latin-1 capitals
    U+00C0..U+00DE except the multiplication sign U+00D7. *)
Definition lower_char (c : ascii) : ascii :=
  let n := code c in
  if (Nat.leb 65 n && Nat.leb n 90)
     || (Nat.leb 192 n && Nat.leb n 222 && negb (Nat.eqb n 215))
  then ascii_of_nat (n + 32) else c.

Fixpoint toLowerCase (s : string) : string :=
  match s with
  | EmptyString => EmptyString
  | String c s' => String (lower_char c) (toLowerCase s')
  end.

Fixpoint rev_acc (s acc : string) : string :=
  match s with
  | EmptyString => acc
  | String c s' => rev_acc s' (String c acc)
  end.

Definition rev (s : string) : string := rev_acc s EmptyString.

(** A line terminator, which the regular-expression dot does not match
    (U+2028 and U+2029 lie outside the alphabet). *)
Definition is_line_terminator (c : ascii) : bool :=
  Nat.eqb (code c) 10 || Nat.eqb (code c) 13.

(** [!!s.match('.app$')]: the string pattern is compiled as the regular
    expression [/.app$/], whose dot matches any character but a line
    terminator. *)
Definition match_dot_app_end (s : string) : bool :=
  match rev s with
  | String p3 (String p2 (String a (String d _))) =>
      Ascii.eqb a "a" && Ascii.eqb p2 "p" && Ascii.eqb p3 "p"
      && negb (is_line_terminator d)
  | _ => false
  end.

Definition string_of_bool (b : bool) : string :=
  if b then "true" else "false".

End Js.

(** ** Node's [path] module (POSIX flavour) *)

Module path.

Definition slash : ascii := "/".
Definition dot : ascii := ".".

(** The segments between the separators; there is always at least one. *)
Fixpoint split (s : string) : list string :=
  match s with
  | EmptyString => [EmptyString]
  | String c s' =>
      if Ascii.eqb c slash then EmptyString :: split s'
      else match split s' with
           | [] => [String c EmptyString]
           | seg :: segs => String c seg :: segs
           end
  end.

(** Segments glued back with single separators. *)
Fixpoint glue (segs : list string) : string :=
  match segs with
  | [] => EmptyString
  | [seg] => seg
  | seg :: rest => seg +:+ "/" +:+ glue rest
  end.

(** One segment of [normalizeString]; [stk] is the result so far, last
    segment first. *)
Definition norm_step (allowAboveRoot : bool) (stk : list string) (seg : string)
  : list string :=
  if String.eqb seg "" || String.eqb seg "." then stk
  else if String.eqb seg ".." then
    match stk with
    | top :: below =>
        if String.eqb top ".." then
          (if allowAboveRoot then ".." :: stk else stk)
        else below
    | [] => if allowAboveRoot then [".."] else []
    end
  else seg :: stk.

Definition normalizeString (p : string) (allowAboveRoot : bool) : string :=
  glue (List.rev (fold_left (norm_step allowAboveRoot) (split p) [])).

Definition starts_with_slash (p : string) : bool :=
  match p with
  | String c _ => Ascii.eqb c slash
  | EmptyString => false
  end.

Definition ends_with_slash (p : string) : bool :=
  starts_with_slash (Js.rev p).

Definition normalize (p : string) : string :=
  if String.eqb p "" then "."
  else
    let isAbsolute := starts_with_slash p in
    let trailingSeparator := ends_with_slash p in
    let q := normalizeString p (negb isAbsolute) in
    if String.eqb q "" then
      (if isAbsolute then "/" else if trailingSeparator then "./" else ".")
    else
      let q' := if trailingSeparator then q +:+ "/" else q in
      if isAbsolute then "/" +:+ q' else q'.

(** [path.join(...args)]: empty arguments are skipped. *)
Definition join (args : list string) : string :=
  match List.filter Js.truthy args with
  | [] => "."
  | parts => normalize (glue parts)
  end.

(** [path.resolve(p)] for one argument; [cwd] is [process.cwd()]. *)
Definition resolve (cwd p : string) : string :=
  let '(resolvedPath, resolvedAbsolute) :=
    if Js.truthy p then
      if starts_with_slash p then (p +:+ "/", true)
      else if Js.truthy cwd then (cwd +:+ "/" +:+ p +:+ "/", starts_with_slash cwd)
      else (p +:+ "/", false)
    else if Js.truthy cwd then (cwd +:+ "/", starts_with_slash cwd)
    else ("", false) in
  let q := normalizeString resolvedPath (negb resolvedAbsolute) in
  if resolvedAbsolute then "/" +:+ q
  else if Js.truthy q then q else ".".

Fixpoint drop_slashes (s : string) : string :=
  match s with
  | String c s' => if Ascii.eqb c slash then drop_slashes s' else s
  | EmptyString => EmptyString
  end.

(** Splits at the first separator: the characters before it, and the rest
    starting with the separator (empty when there is none). *)
Fixpoint span_segment (s : string) : string * string :=
  match s with
  | String c s' =>
      if Ascii.eqb c slash then (EmptyString, s)
      else let '(seg, rest) := span_segment s' in (String c seg, rest)
  | EmptyString => (EmptyString, EmptyString)
  end.

(** [path.basename(p)]: trailing separators are ignored. *)
Definition basename (p : string) : string :=
  Js.rev (fst (span_segment (drop_slashes (Js.rev p)))).

(** [path.dirname(p)]. *)
Definition dirname (p : string) : string :=
  match p with
  | EmptyString => "."
  | String c0 tl =>
      let hasRoot := Ascii.eqb c0 slash in
      match snd (span_segment (drop_slashes (Js.rev tl))) with
      | EmptyString => if hasRoot then "/" else "."
      | String _ before =>
          if hasRoot && String.eqb before "" then "//"
          else String c0 (Js.rev before)
      end
  end.

(** Splits a reversed component at its first dot: the reversed extension
    without the dot, and what precedes the dot (still reversed). *)
Fixpoint span_dot (s : string) : option (string * string) :=
  match s with
  | String c s' =>
      if Ascii.eqb c dot then Some (EmptyString, s')
      else match span_dot s' with
           | Some (ext, pre) => Some (String c ext, pre)
           | None => None
           end
  | EmptyString => None
  end.

(** [path.extname(p)]: from the last dot of the last component; empty
    when that component has no dot, starts with its only dot, or is
    [".."]. *)
Definition extname (p : string) : string :=
  let comp := fst (span_segment (drop_slashes (Js.rev p))) in
  match span_dot comp with
  | None => ""
  | Some (ext, pre) =>
      if String.eqb pre "" then ""
      else if String.eqb pre "." && String.eqb ext "" then ""
      else Js.rev (ext +:+ ".")
  end.

End path.

(** ** The [sanitize-filename] package

    [sanitize(input)] with no options, as published (version 1.6): five
    replacements by the empty string, in this order, then truncation to 255
    bytes of UTF-8. *)

Module Sanitize.

Definition is_char (x : ascii) (c : ascii) : bool := Ascii.eqb c x.

(** [illegalRe]: the class of slash, question mark, angle brackets,
    backslash, colon, asterisk, vertical bar and double quote. *)
Definition illegal (c : ascii) : bool :=
  let n := Js.code c in
  existsb (Nat.eqb n) [47; 63; 60; 62; 92; 58; 42; 124; 34].

(** [controlRe]: the C0 controls 0x00-0x1f and the C1 controls 0x80-0x9f. *)
Definition control (c : ascii) : bool :=
  let n := Js.code c in
  Nat.leb n 31 || (Nat.leb 128 n && Nat.leb n 159).

(** Removes every character that [bad] holds of. *)
Fixpoint remove (bad : ascii -> bool) (s : string) : string :=
  match s with
  | EmptyString => EmptyString
  | String c s' => if bad c then remove bad s' else String c (remove bad s')
  end.

Fixpoint all_dots (s : string) : bool :=
  match s with
  | EmptyString => true
  | String c s' => is_char "." c && all_dots s'
  end.

(** [reservedRe]: a name made of dots only (one or more). *)
Definition reserved (s : string) : bool :=
  Js.truthy s && all_dots s.

Definition lower_ascii (c : ascii) : ascii :=
  let n := Js.code c in
  if Nat.leb 65 n && Nat.leb n 90 then ascii_of_nat (n + 32) else c.

Definition is_digit (c : ascii) : bool :=
  Nat.leb 48 (Js.code c) && Nat.leb (Js.code c) 57.

(** The optional tail of the Windows pattern: nothing, or a dot and any
    rest (line terminators are control characters and already gone). *)
Definition dot_rest (s : string) : bool :=
  match s with
  | EmptyString => true
  | String c _ => is_char "." c
  end.

(** [windowsReservedRe]: con, prn, aux, nul, com0-com9 or lpt0-lpt9 in any
    letter case, alone or followed by a dot and anything. *)
Definition windowsReserved (s : string) : bool :=
  match s with
  | String a (String b (String c rest)) =>
      let w := String (lower_ascii a) (String (lower_ascii b)
                 (String (lower_ascii c) EmptyString)) in
      (existsb (String.eqb w) ["con"; "prn"; "aux"; "nul"] && dot_rest rest)
      || (existsb (String.eqb w) ["com"; "lpt"]
          && match rest with
             | String d rest' => is_digit d && dot_rest rest'
             | EmptyString => false
             end)
  | _ => false
  end.

Definition dot_or_space (c : ascii) : bool :=
  is_char "." c || is_char " " c.

Fixpoint drop_while (p : ascii -> bool) (s : string) : string :=
  match s with
  | String c s' => if p c then drop_while p s' else s
  | EmptyString => EmptyString
  end.

(** [windowsTrailingRe]: the trailing run of dots and spaces, removed. *)
Definition strip_trailing (s : string) : string :=
  Js.rev (drop_while dot_or_space (Js.rev s)).

(** Bytes of one code unit below 256 in UTF-8. *)
Definition utf8_len (c : ascii) : nat :=
  if Nat.leb (Js.code c) 127 then 1 else 2.

(** [truncate-utf8-bytes]: the longest prefix of whole characters that
    fits in [budget] bytes. *)
Fixpoint truncate (budget : nat) (s : string) : string :=
  match s with
  | EmptyString => EmptyString
  | String c s' =>
      if Nat.leb (utf8_len c) budget
      then String c (truncate (budget - utf8_len c) s')
      else EmptyString
  end.

Definition sanitize (input : string) : string :=
  let s1 := remove illegal input in
  let s2 := remove control s1 in
  let s3 := if reserved s2 then "" else s2 in
  let s4 := if windowsReserved s3 then "" else s3 in
  let s5 := strip_trailing s4 in
  truncate 255 s5.

End Sanitize.

Definition sanitize := Sanitize.sanitize.

(** ** Inputs and constants ([src/constants.ts]) *)

(** The action's inputs as [core.getInput] delivers them (the boolean ones
    already compared with ['true']), and what the process reads from its
    surroundings: [os.homedir()], [process.cwd()] and [__dirname]. *)
Record Inputs := {
  RELATIVE_EXPORT_PATH : string;
  RELATIVE_PROJECT_PATH : string;
  WINE_PATH : string;
  USE_PRESET_EXPORT_PATH : bool;
  EXPORT_DEBUG : bool;
  GODOT_VERBOSE : bool;
  ARCHIVE_ROOT_FOLDER : bool;
  USE_GODOT_4 : bool;
  EXPORT_PACK_ONLY : bool;
  homedir : string;
  cwd : string;
  dirname__ : string;
  (** [DESKTOP_PLATFORM.macOS], [DESKTOP_PLATFORMS] and
      [STEAM_SDK_TARGET_PATH[platform]], which the packaging code imports
      but [constants.ts] does not define, are taken as given. *)
  DESKTOP_PLATFORM_macOS : string;
  DESKTOP_PLATFORMS_macOS : string;
  DESKTOP_PLATFORMS_values : list string;
  STEAM_SDK_TARGET_PATH : string -> string
}.

Section Constants.

Variable cfg : Inputs.

Definition GODOT_WORKING_PATH : string :=
  path.resolve (cwd cfg) (path.join [homedir cfg; "/.local/share/godot"]).
Definition GODOT_CONFIG_PATH : string :=
  path.resolve (cwd cfg) (path.join [homedir cfg; "/.config/godot"]).
Definition GODOT_BUILD_PATH : string :=
  path.join [GODOT_WORKING_PATH; "builds"].
Definition GODOT_ARCHIVE_PATH : string :=
  path.join [GODOT_WORKING_PATH; "archives"].
Definition GODOT_PROJECT_PATH : string :=
  path.resolve (cwd cfg) (path.join [RELATIVE_PROJECT_PATH cfg]).
Definition GODOT_PROJECT_FILE_PATH : string :=
  path.join [GODOT_PROJECT_PATH; "project.godot"].
Definition STEAM_APPID_PATH : string :=
  path.resolve (cwd cfg) (path.join [RELATIVE_PROJECT_PATH cfg; "steam_appid.txt"]).

(** [src/godot.ts] *)
Definition GODOT_EXECUTABLE : string := "godot_executable".
Definition GODOT_ZIP : string := "godot.zip".
Definition EDITOR_SETTINGS_FILENAME : string :=
  if USE_GODOT_4 cfg then "editor_settings-4.tres" else "editor_settings-3.tres".

End Constants.

(** ** Data ([types/GodotExport]) *)

(** The fields of a preset that the pipeline reads. *)
Record ExportPreset := {
  name : string;
  platform : string;
  export_path : string
}.

(** The decoded [export_presets.cfg].  [preset_table] is its [preset]
    property: [None] when the file has no [preset] table, and otherwise the
    table's entries in the order [for ... in] enumerates them. *)
Record ExportPresets := {
  preset_table : option (list (string * ExportPreset))
}.

Record BuildResult := {
  preset : ExportPreset;
  sanitizedName : string;
  executablePath : string;
  directoryEntryCount : nat;
  directory : string;
  archivePath : option string
}.

(** ** Effects *)

(** What the pipeline does to the outside world.  Purely informational
    logging ([core.info], [core.startGroup], [core.endGroup]) changes no
    decision and is not recorded; warnings are. *)
Inductive action :=
| Warning (msg : string)
| SetFailed (msg : string)
| MkdirP (dir : string)
| Cp (source dest : string) (recursive force : bool)
| Exec (prog : string) (args : list string)
| AddPath (dir : string).

(** What [fs.statSync] and [fs.readdirSync] see at a path: a regular file,
    something that is neither a file nor a directory, or a directory with
    its entries in the order [readdirSync] lists them. *)
Inductive fsnode :=
| RegFile
| Special
| Directory (entries : list (string * fsnode)).

(** [readdirSync] lists the names of a directory in ascending order of
    their code units. *)
Fixpoint name_before (a b : string) : bool :=
  match a, b with
  | EmptyString, String _ _ => true
  | String x a', String y b' =>
      Nat.ltb (nat_of_ascii x) (nat_of_ascii y)
      || (Nat.eqb (nat_of_ascii x) (nat_of_ascii y) && name_before a' b')
  | _, _ => false
  end.

Fixpoint ascending (names : list string) : bool :=
  match names with
  | a :: (b :: _) as rest => name_before a b && ascending rest
  | _ => true
  end.

(** A tree whose directories all hold their entries in the order in which
    [readdirSync] lists them. *)
Fixpoint listed_in_order (n : fsnode) : bool :=
  match n with
  | Directory entries =>
      ascending (List.map fst entries)
      && (fix each (entries : list (string * fsnode)) : bool :=
            match entries with
            | [] => true
            | (_, child) :: rest => listed_in_order child && each rest
            end) entries
  | _ => true
  end.

Inductive outcome (A : Type) :=
| Return (a : A)
| Throw (msg : string).
Arguments Return {A} a.
Arguments Throw {A} msg.

(** The answers of the environment; each may depend on all that was done
    before the question. *)
Record Env := {
  (** exit status of [exec(prog, args)] *)
  exec_status : list action -> string -> list string -> Z;
  (** whether [exec] rejects on a non-zero exit status (the default of
      [@actions/exec]) or hands the status back *)
  exec_rejects : bool;
  (** [io.mkdirP(dir)]: the error it rejects with, [None] when the
      directory is there afterwards (a regular file in the way, for one,
      makes it reject) *)
  mkdirP_error : list action -> string -> option string;
  (** [io.cp(source, dest, {recursive, force})]: the error it rejects
      with, [None] when the copy goes through (a missing source, or a file
      copied onto itself, makes it reject) *)
  cp_error : list action -> string -> string -> bool -> bool -> option string;
  (** what lies at a path, [None] when nothing does *)
  tree_at : list action -> string -> option fsnode;
  (** [fs.readdirSync(dir)]: the listing, or the error thrown *)
  readdirSync : list action -> string -> outcome (list string);
  (** [fs.existsSync(p)] *)
  existsSync : list action -> string -> bool;
  (** the decoded [export_presets.cfg] of the project, [None] when there is
      no such regular file *)
  export_presets_cfg : list action -> option ExportPresets
}.

(** A computation over a state [S]: from the state it starts in to an
    outcome and the state it ends in. *)
Definition St (S A : Type) : Type := S -> outcome A * S.

Definition ret {S A} (a : A) : St S A := fun s => (Return a, s).
Definition throw {S A} (msg : string) : St S A := fun s => (Throw msg, s).
Definition bind {S A B} (m : St S A) (k : A -> St S B) : St S B :=
  fun s =>
    match m s with
    | (Return a, s') => k a s'
    | (Throw msg, s') => (Throw msg, s')
    end.

#[global] Instance St_ret {S} : MRet (St S) := @ret S.
#[global] Instance St_bind {S} : MBind (St S) := fun A B k m => bind m k.

(** The pipeline's computations run over the actions done so far. *)
Abbreviation M := (St (list action)).

Definition emit (a : action) : M unit := fun tr => (Return tt, tr ++ [a]).
Definition ask {A} (q : list action -> A) : M A := fun tr => (Return (q tr), tr).
Definition lift {S A} (o : outcome A) : St S A := fun s => (o, s).

(** Outcome and final trace of a computation started after [tr]. *)
Definition result_of {A} (m : M A) (tr : list action) : outcome A := fst (m tr).
Definition trace_of {A} (m : M A) (tr : list action) : list action := snd (m tr).

Definition dquote : string := String (ascii_of_nat 34) EmptyString.

(** ** [src/godot.ts] *)

Section Godot.

Variable cfg : Inputs.
Variable env : Env.

Definition exec (prog : string) (args : list string) : M Z :=
  fun tr =>
    let status := exec_status env tr prog args in
    if exec_rejects env && negb (Z.eqb status 0)
    then (Throw ("The process '" +:+ prog +:+ "' failed"), tr ++ [Exec prog args])
    else (Return status, tr ++ [Exec prog args]).

(** [await io.mkdirP(dir)]: the call is recorded, and it rejects when the
    environment says so. *)
Definition mkdirP (dir : string) : M unit :=
  fun tr =>
    match mkdirP_error env tr dir with
    | Some msg => (Throw msg, tr ++ [MkdirP dir])
    | None => (Return tt, tr ++ [MkdirP dir])
    end.

(** [io.cp(source, dest, options)] before it is awaited: the copy is
    started and recorded, and what comes back stands for the promise: the
    error it is going to reject with, if any. *)
Definition start_cp (source dest : string) (recursive force : bool) : M (option string) :=
  fun tr =>
    (Return (cp_error env tr source dest recursive force),
     tr ++ [Cp source dest recursive force]).

(** [await promise] *)
Definition await (promise : option string) : M unit :=
  match promise with
  | Some msg => throw msg
  | None => mret tt
  end.

(** [await Promise.all(promises)]: rejects as soon as one of the promises
    does.  Which rejection comes first in time is not known here; the
    first in the order of the list is taken. *)
Fixpoint await_all (promises : list (option string)) : M unit :=
  match promises with
  | [] => mret tt
  | promise :: rest => _ ← await promise; await_all rest
  end.

(** [fs.readdirSync(dir)], which throws when it cannot list [dir]. *)
Definition readdir (dir : string) : M (list string) :=
  fun tr => (readdirSync env tr dir, tr).

Definition hasExportPresets : M bool :=
  ask (fun tr => bool_decide (is_Some (export_presets_cfg env tr))).

Definition getExportPresets : M (list ExportPreset) :=
  let projectPath := path.resolve (cwd cfg) (RELATIVE_PROJECT_PATH cfg) in
  has ← hasExportPresets;
  if negb has then
    throw ("Could not find export_presets.cfg in " +:+ projectPath)
  else
    presets ← ask (export_presets_cfg env);
    match presets with
    | None => throw "ENOENT: no such file or directory"
    | Some {| preset_table := Some table |} => mret (List.map snd table)
    | Some {| preset_table := None |} =>
        _ ← emit (Warning ("No presets found in export_presets.cfg at " +:+ projectPath));
        mret []
    end.

(** The output path of a preset inside its build directory, [None] when
    the preset has no export path. *)
Definition executablePath_of (p : ExportPreset) : option string :=
  let buildDir := path.join [GODOT_BUILD_PATH cfg; sanitize (name p)] in
  if Js.truthy (export_path p)
  then Some (path.join [buildDir; path.basename (export_path p)])
  else None.

Definition pck_suffix (executablePath : string) : string :=
  if EXPORT_PACK_ONLY cfg then executablePath +:+ ".pck" else executablePath.

Definition exportFlag : string :=
  if USE_GODOT_4 cfg then
    (if EXPORT_DEBUG cfg then "--export-debug" else "--export-release")
  else if EXPORT_PACK_ONLY cfg then "--export-pack"
  else if EXPORT_DEBUG cfg then "--export-debug" else "--export".

(** [args.splice(1, 0, '--headless')] *)
Definition splice_headless (args : list string) : list string :=
  match args with
  | a0 :: rest => a0 :: "--headless" :: rest
  | [] => ["--headless"]
  end.

Definition export_args (p : ExportPreset) (executablePath : string) : list string :=
  let args := [GODOT_PROJECT_FILE_PATH cfg; exportFlag; name p; executablePath] in
  let args := if USE_GODOT_4 cfg then splice_headless args else args in
  if GODOT_VERBOSE cfg then args ++ ["--verbose"] else args.

(** The body of the loop of [doExport] over the presets still to do;
    [buildResults] are the results pushed so far. *)
Fixpoint doExport_loop (presets : list ExportPreset) (buildResults : list BuildResult)
  : M (list BuildResult) :=
  match presets with
  | [] => mret buildResults
  | p :: rest =>
      let sanitizedName := sanitize (name p) in
      let buildDir := path.join [GODOT_BUILD_PATH cfg; sanitizedName] in
      let executablePath := executablePath_of p in
      if negb (Js.truthy_opt executablePath) then
        _ ← emit (Warning ("No file path set for preset " +:+ dquote +:+ name p
                            +:+ dquote +:+ ". Skipping export!"));
        doExport_loop rest buildResults
      else
        let executablePath := pck_suffix (default "" executablePath) in
        _ ← mkdirP buildDir;
        result ← exec "godot" (export_args p executablePath);
        if negb (Z.eqb result 0) then throw "1 or more exports failed"
        else
          directoryEntries ← readdir buildDir;
          doExport_loop rest
            (buildResults ++ [ {| preset := p;
                                  sanitizedName := sanitizedName;
                                  executablePath := executablePath;
                                  directoryEntryCount := length directoryEntries;
                                  directory := buildDir;
                                  archivePath := None |} ])
  end.

Definition doExport : M (list BuildResult) :=
  presets ← getExportPresets;
  doExport_loop presets [].

Definition isFile (n : fsnode) : bool :=
  match n with RegFile => true | _ => false end.

(** The search for the engine binary below [basePath], where [n] is what
    lies at [basePath].  [dirs] holds, for each path the first loop
    pushed, what the search started there returns; the second loop
    returns in its first round, so only the head of [dirs] is ever
    used.  [readdirSync] of anything but a directory throws. *)
Fixpoint findGodotExecutablePath (basePath : string) (n : fsnode)
  : outcome (option string) :=
  match n with
  | Directory paths =>
      (fix scan (paths : list (string * fsnode))
                (dirs : list (outcome (option string))) :=
         match paths with
         | (subPath, node) :: rest =>
             let fullPath := path.join [basePath; subPath] in
             if isFile node
                && (String.eqb (path.extname fullPath) ".64"
                    || String.eqb (path.extname fullPath) ".x86_64")
             then Return (Some fullPath)
             else scan rest (dirs ++ [findGodotExecutablePath fullPath node])
         | [] =>
             match dirs with
             | found :: _ => found
             | [] => Return None
             end
         end) paths []
  | _ => Throw ("ENOTDIR: not a directory, scandir '" +:+ basePath +:+ "'")
  end.

Definition prepareExecutable : M unit :=
  let zipFile := path.join [GODOT_WORKING_PATH cfg; GODOT_ZIP] in
  let zipTo := path.join [GODOT_WORKING_PATH cfg; GODOT_EXECUTABLE] in
  _ ← exec "7z" ["x"; zipFile; "-o" +:+ zipTo; "-y"];
  extracted ← ask (fun tr => tree_at env tr zipTo);
  executablePath ←
    match extracted with
    | Some n => lift (findGodotExecutablePath zipTo n)
    | None => throw ("ENOENT: no such file or directory, scandir '" +:+ zipTo +:+ "'")
    end;
  if negb (Js.truthy_opt executablePath) then
    throw "Could not find Godot executable"
  else
    let executablePath := default "" executablePath in
    let finalGodotPath := path.join [path.dirname executablePath; "godot"] in
    _ ← exec "mv" [executablePath; finalGodotPath];
    _ ← emit (AddPath (path.dirname finalGodotPath));
    _ ← exec "chmod" ["+x"; finalGodotPath];
    mret tt.

End Godot.

(** ** [src/file.ts]

    The sources hold the packaging code at several stages.  Two of them
    are embedded: the plain one ([File], the first in [file.ts]) and the
    one that assembles the Steam SDK contents for macOS ([FileSteam]).
    [zipBuildResults] starts one [zipBuildResult] per artifact and joins
    them; each of them is embedded on its own. *)

Definition archive_operand (cfg : Inputs) (br : BuildResult) : string :=
  directory br +:+ (if ARCHIVE_ROOT_FOLDER cfg then "" else "/*").

Definition with_archivePath (br : BuildResult) (a : string) : BuildResult :=
  {| preset := preset br;
     sanitizedName := sanitizedName br;
     executablePath := executablePath br;
     directoryEntryCount := directoryEntryCount br;
     directory := directory br;
     archivePath := Some a |}.

Definition zipPath_of (cfg : Inputs) (br : BuildResult) : string :=
  path.join [GODOT_ARCHIVE_PATH cfg; sanitizedName br +:+ ".zip"].

Module File.
Section File.

Variable cfg : Inputs.
Variable env : Env.

Definition isMac (br : BuildResult) : bool :=
  String.eqb (Js.toLowerCase (platform (preset br))) (DESKTOP_PLATFORM_macOS cfg).

Definition endsInDotApp (br : BuildResult) : bool :=
  Js.match_dot_app_end (export_path (preset br)).

Definition zipBuildResult (br : BuildResult) : M BuildResult :=
  _ ← mkdirP env (GODOT_ARCHIVE_PATH cfg);
  let zipPath := zipPath_of cfg br in
  _ ← (if isMac br && negb (endsInDotApp br) then
         let baseName := path.basename (export_path (preset br)) in
         let macPath := path.join [directory br; baseName] in
         promise ← start_cp env macPath zipPath false true;
         await promise
       else
         present ← ask (fun tr => existsSync env tr zipPath);
         if negb present then
           _ ← exec env "7z" ["a"; zipPath; archive_operand cfg br];
           mret tt
         else mret tt);
  mret (with_archivePath br zipPath).

Definition fullExportPath (br : BuildResult) : string :=
  path.resolve (cwd cfg)
    (if USE_PRESET_EXPORT_PATH cfg
     then path.join [GODOT_PROJECT_PATH cfg; path.dirname (export_path (preset br))]
     else RELATIVE_EXPORT_PATH cfg).

Definition skipped_warning : string :=
  "Attempted to move export output that was not archived. Skipping".

(** The loop of [moveBuildsToExportDirectory].  The artifacts are updated
    in place, so the list comes back with the updates, next to the
    promises pushed: each [io.mkdirP] is awaited in the loop, each copy is
    only started there. *)
Fixpoint moveBuilds_loop (buildResults : list BuildResult) (moveArchived : bool)
    : M (list BuildResult * list (option string)) :=
  match buildResults with
  | [] => mret ([], [])
  | br :: rest =>
      _ ← mkdirP env (fullExportPath br);
      if moveArchived then
        if negb (Js.truthy_opt (archivePath br)) then
          _ ← emit (Warning skipped_warning);
          later ← moveBuilds_loop rest moveArchived;
          mret (br :: fst later, snd later)
        else
          let archive := default "" (archivePath br) in
          let newArchivePath := path.join [fullExportPath br; path.basename archive] in
          promise ← start_cp env archive newArchivePath false true;
          later ← moveBuilds_loop rest moveArchived;
          mret (with_archivePath br newArchivePath :: fst later, promise :: snd later)
      else
        promise ← start_cp env (directory br) (fullExportPath br) true true;
        let directory' := path.join [fullExportPath br; path.basename (directory br)] in
        let br' := {| preset := preset br;
                      sanitizedName := sanitizedName br;
                      executablePath :=
                        path.join [directory'; path.basename (executablePath br)];
                      directoryEntryCount := directoryEntryCount br;
                      directory := directory';
                      archivePath := archivePath br |} in
        later ← moveBuilds_loop rest moveArchived;
        mret (br' :: fst later, promise :: snd later)
  end.

(** [moveBuildsToExportDirectory]: the loop, and then
    [await Promise.all(promises)]. *)
Definition moveBuildsToExportDirectory (buildResults : list BuildResult)
    (moveArchived : bool) : M (list BuildResult) :=
  moved ← moveBuilds_loop buildResults moveArchived;
  _ ← await_all (snd moved);
  mret (fst moved).

End File.
End File.

Module FileSteam.
Section FileSteam.

Variable cfg : Inputs.
Variable env : Env.

Definition assembleSteamContentsFor (p : ExportPreset) (buildDir : string) : M unit :=
  let libPath := STEAM_SDK_TARGET_PATH cfg (platform p) in
  if String.eqb (platform p) (DESKTOP_PLATFORMS_macOS cfg) then
    let buildLocation := Js.replace (path.basename (export_path p)) "" buildDir in
    let resolvedBuildDir := Js.replace ".zip" ".app" buildDir in
    let macOSPath := path.join [resolvedBuildDir; "Contents"; "MacOS"] in
    _ ← exec env "unzip" ["-q"; buildDir; "-d"; buildLocation];
    _ ← exec env "rm" [buildDir];
    _ ← exec env "ls" [resolvedBuildDir];
    _ ← exec env "cp" [STEAM_APPID_PATH cfg; macOSPath];
    _ ← exec env "mv" [libPath; macOSPath];
    _ ← exec env "7z" ["a"; resolvedBuildDir; buildDir];
    mret tt
  else
    _ ← exec env "cp" [STEAM_APPID_PATH cfg; buildDir];
    _ ← exec env "mv" [libPath; buildDir];
    mret tt.

Definition isMac (br : BuildResult) : bool :=
  String.eqb (Js.toLowerCase (platform (preset br))) "mac osx".

Definition endsInDotApp (br : BuildResult) : bool :=
  Js.match_dot_app_end (export_path (preset br)).

(** [Object.values(DESKTOP_PLATFORMS).includes(platform)] *)
Definition isDesktop (br : BuildResult) : bool :=
  existsb (String.eqb (platform (preset br))) (DESKTOP_PLATFORMS_values cfg).

Definition zipBuildResult (br : BuildResult) : M BuildResult :=
  _ ← mkdirP env (GODOT_ARCHIVE_PATH cfg);
  let zipPath := zipPath_of cfg br in
  _ ← (if isMac br && negb (endsInDotApp br) then
         let baseName := path.basename (export_path (preset br)) in
         let macPath := path.join [directory br; baseName] in
         _ ← assembleSteamContentsFor (preset br) macPath;
         promise ← start_cp env macPath zipPath false true;
         await promise
       else
         present ← ask (fun tr => existsSync env tr zipPath);
         if negb present then
           _ ← (if isDesktop br
                then assembleSteamContentsFor (preset br) (directory br)
                else mret tt);
           _ ← exec env "7z" ["a"; zipPath; archive_operand cfg br];
           mret tt
         else mret tt);
  mret (with_archivePath br zipPath).

End FileSteam.
End FileSteam.

(** ** Files on disk: [io.mkdirP] and [io.cp] of [@actions/io] *)

Module Io.

Inductive fsentry :=
| EFile (content : string)
| EDir.

(** The disk: what lies at each absolute path. *)
Abbreviation filesystem := (gmap string fsentry).

Fixpoint ancestors_from (pre : string) (segs : list string) : list string :=
  match segs with
  | [] => []
  | seg :: rest =>
      let d := pre +:+ "/" +:+ seg in
      d :: ancestors_from d rest
  end.

(** The directories on the way to [dir], outermost first, [dir] last. *)
Definition ancestors (cwd dir : string) : list string :=
  ancestors_from "" (List.filter Js.truthy (path.split (path.resolve cwd dir))).

Fixpoint mkdirs (dirs : list string) : St filesystem unit :=
  match dirs with
  | [] => mret tt
  | d :: rest =>
      fun fs =>
        match fs !! d with
        | None => mkdirs rest (<[d := EDir]> fs)
        | Some EDir => mkdirs rest fs
        | Some (EFile _) => (Throw ("EEXIST: file already exists, mkdir '" +:+ d +:+ "'"), fs)
        end
  end.

(** Modelled from the spec: [io.mkdirP] is the external mkdir utility of
    section 1, described in sections 4.4 and 5 as an idempotent create if
    absent: every missing directory on the way is created, an existing
    directory is left alone, and a regular file in the way is an error. *)
Definition mkdirP (cwd dir : string) : St filesystem unit :=
  mkdirs (ancestors cwd dir).

(** Modelled from the spec: [io.cp] is the external file-copy utility of
    section 1, for a source that is a regular file (no [recursive]
    option).  With [force] unset an existing file at the destination is
    never overwritten (section 4.1: only if no settings file already
    exists); a destination that is a directory receives the file under
    the source's base name. *)
Definition cp (cwd source dest : string) (force : bool) : St filesystem unit :=
  fun fs =>
    let destStat := fs !! path.resolve cwd dest in
    match destStat with
    | Some (EFile _) =>
        if negb force then (Return tt, fs) else
        match fs !! path.resolve cwd source with
        | None => (Throw ("no such file or directory: " +:+ source), fs)
        | Some EDir => (Throw ("Failed to copy. " +:+ source +:+ " is a directory"), fs)
        | Some (EFile content) =>
            if String.eqb (path.resolve cwd source) (path.resolve cwd dest)
            then (Throw "source and destination are the same file", fs)
            else (Return tt, <[path.resolve cwd dest := EFile content]> fs)
        end
    | _ =>
        let newDest :=
          match destStat with
          | Some EDir => path.join [dest; path.basename source]
          | _ => dest
          end in
        match fs !! path.resolve cwd source with
        | None => (Throw ("no such file or directory: " +:+ source), fs)
        | Some EDir => (Throw ("Failed to copy. " +:+ source +:+ " is a directory"), fs)
        | Some (EFile content) =>
            if String.eqb (path.resolve cwd source) (path.resolve cwd newDest)
            then (Throw "source and destination are the same file", fs)
            else
              match fs !! path.resolve cwd newDest with
              | None => (Return tt, <[path.resolve cwd newDest := EFile content]> fs)
              | Some (EFile _) =>
                  if force
                  then (Return tt, <[path.resolve cwd newDest := EFile content]> fs)
                  else (Return tt, fs)
              | Some EDir =>
                  (Throw ("EISDIR: illegal operation on a directory, copyfile '"
                          +:+ source +:+ "'"), fs)
              end
        end
    end.

End Io.

Section EditorSettings.

Variable cfg : Inputs.

Definition editorSettingsPath : string :=
  path.join [GODOT_CONFIG_PATH cfg; EDITOR_SETTINGS_FILENAME cfg].

(** [addEditorSettings] of [src/godot.ts], run on the disk. *)
Definition addEditorSettings : St Io.filesystem unit :=
  let editorSettingsDist := path.join [dirname__ cfg; EDITOR_SETTINGS_FILENAME cfg] in
  _ ← Io.mkdirP (cwd cfg) (GODOT_CONFIG_PATH cfg);
  _ ← Io.cp (cwd cfg) editorSettingsDist editorSettingsPath false;
  mret tt.

End EditorSettings.

(** ** What the design document says, in its own words *)

Module Design.

(** Section 4.3: the mode flag by engine version, pack-only and debug. *)
Definition mode_flag (current packOnly debug : bool) : string :=
  match current, packOnly, debug with
  | false, false, false => "--export"
  | false, false, true => "--export-debug"
  | false, true, _ => "--export-pack"
  | true, _, false => "--export-release"
  | true, _, true => "--export-debug"
  end.

(** Section 4.3: [.pck] is appended for the current version when
    pack-only is requested. *)
Definition output_path (current packOnly : bool) (base : string) : string :=
  if current && packOnly then base +:+ ".pck" else base.

(** Section 4.3: [projectFile, modeFlag, presetName, outputPath], the
    headless flag ahead of the mode flag for the current version, and
    the optional verbose flag. *)
Definition invocation (cfg : Inputs) (p : ExportPreset) (base : string) : list string :=
  let flag := mode_flag (USE_GODOT_4 cfg) (EXPORT_PACK_ONLY cfg) (EXPORT_DEBUG cfg) in
  let out := output_path (USE_GODOT_4 cfg) (EXPORT_PACK_ONLY cfg) base in
  [GODOT_PROJECT_FILE_PATH cfg]
    ++ (if USE_GODOT_4 cfg then ["--headless"] else [])
    ++ [flag; name p; out]
    ++ (if GODOT_VERBOSE cfg then ["--verbose"] else []).

Definition known_suffix (p : string) : bool :=
  String.eqb (path.extname p) ".64" || String.eqb (path.extname p) ".x86_64".

(** Section 4.1: a depth-first traversal of the extracted tree that
    returns the first regular file with a known binary suffix. *)
Fixpoint depth_first_search (basePath : string) (n : fsnode) : option string :=
  match n with
  | Directory entries =>
      (fix walk (entries : list (string * fsnode)) : option string :=
         match entries with
         | [] => None
         | (subPath, node) :: rest =>
             let fullPath := path.join [basePath; subPath] in
             match node with
             | RegFile => if known_suffix fullPath then Some fullPath else walk rest
             | Special => walk rest
             | Directory _ =>
                 match depth_first_search fullPath node with
                 | Some found => Some found
                 | None => walk rest
                 end
             end
         end) entries
  | _ => None
  end.

End Design.

(** ** Reading traces *)

(** The argument lists of the engine invocations in a trace. *)
Definition godot_calls (tr : list action) : list (list string) :=
  flat_map (fun a => match a with
                     | Exec prog args => if String.eqb prog "godot" then [args] else []
                     | _ => []
                     end) tr.

(** Whether a trace runs the external archiver. *)
Definition invokes_archiver (tr : list action) : bool :=
  existsb (fun a => match a with
                    | Exec prog _ => String.eqb prog "7z"
                    | _ => false
                    end) tr.

(** The copies started in a trace, as source and destination. *)
Definition copies (tr : list action) : list (string * string) :=
  flat_map (fun a => match a with
                     | Cp source dest _ _ => [(source, dest)]
                     | _ => []
                     end) tr.

(** The directories a trace creates. *)
Definition mkdirs_of (tr : list action) : list string :=
  flat_map (fun a => match a with
                     | MkdirP dir => [dir]
                     | _ => []
                     end) tr.

Definition warnings (tr : list action) : list string :=
  flat_map (fun a => match a with
                     | Warning msg => [msg]
                     | _ => []
                     end) tr.


(** ** A concrete run, for the examples *)

Module Sample.

Definition inputs (current debug packOnly verbose : bool) : Inputs :=
  {| RELATIVE_EXPORT_PATH := "./dist";
     RELATIVE_PROJECT_PATH := "./game";
     WINE_PATH := "";
     USE_PRESET_EXPORT_PATH := true;
     EXPORT_DEBUG := debug;
     GODOT_VERBOSE := verbose;
     ARCHIVE_ROOT_FOLDER := false;
     USE_GODOT_4 := current;
     EXPORT_PACK_ONLY := packOnly;
     homedir := "/home/runner";
     cwd := "/work";
     dirname__ := "/action/dist";
     DESKTOP_PLATFORM_macOS := "mac osx";
     DESKTOP_PLATFORMS_macOS := "Mac OSX";
     DESKTOP_PLATFORMS_values := ["Windows Desktop"; "Linux/X11"; "Mac OSX"];
     STEAM_SDK_TARGET_PATH := fun platform => "/work/game/sdk/" +:+ platform |}.

(** Every command, directory creation and copy succeeds, every asked
    path exists, and the project holds the given decoded presets file. *)
Definition env (cfgfile : option ExportPresets) (extracted : option fsnode) : Env :=
  {| exec_status := fun _ _ _ => 0%Z;
     exec_rejects := true;
     mkdirP_error := fun _ _ => None;
     cp_error := fun _ _ _ _ _ => None;
     tree_at := fun _ _ => extracted;
     readdirSync := fun _ _ => Return ["game.x86_64"];
     existsSync := fun _ _ => true;
     export_presets_cfg := fun _ => cfgfile |}.

Definition linux : ExportPreset :=
  {| name := "Linux"; platform := "Linux/X11"; export_path := "build/linux/game.x86_64" |}.
Definition broken : ExportPreset :=
  {| name := "Broken"; platform := "Linux/X11"; export_path := "build/broken/game.x86_64" |}.
Definition windows : ExportPreset :=
  {| name := "Windows"; platform := "Windows Desktop"; export_path := "build/win/game.exe" |}.
Definition unset : ExportPreset :=
  {| name := "Web"; platform := "HTML5"; export_path := "" |}.
Definition mac : ExportPreset :=
  {| name := "Mac"; platform := "Mac OSX"; export_path := "build/mac/game.zip" |}.

(** A project whose presets are [Linux], [Web] (no export path),
    [Broken] and [Windows]. *)
Definition four_presets : option ExportPresets :=
  Some {| preset_table := Some [("0", linux); ("1", unset);
                                ("2", broken); ("3", windows)] |}.

(** The engine fails on the preset called [Broken]; the project has the
    given decoded presets file. *)
Definition failing_env (cfgfile : option ExportPresets) : Env :=
  {| exec_status := fun _ _ args =>
       if existsb (String.eqb "Broken") args then 1%Z else 0%Z;
     exec_rejects := false;
     mkdirP_error := fun _ _ => None;
     cp_error := fun _ _ _ _ _ => None;
     tree_at := fun _ _ => None;
     readdirSync := fun _ _ => Return ["game.x86_64"];
     existsSync := fun _ _ => false;
     export_presets_cfg := fun _ => cfgfile |}.

(** The archive is on disk once the archiver was run on it, or a file
    was copied to it; every command succeeds. *)
Definition archiving_env : Env :=
  {| exec_status := fun _ _ _ => 0%Z;
     exec_rejects := true;
     mkdirP_error := fun _ _ => None;
     cp_error := fun _ _ _ _ _ => None;
     tree_at := fun _ _ => None;
     readdirSync := fun _ _ => Return ["game.x86_64"];
     existsSync := fun tr p =>
       existsb (fun a => match a with
                         | Exec prog (_ :: target :: _) =>
                             String.eqb prog "7z" && String.eqb target p
                         | Cp _ dest _ _ => String.eqb dest p
                         | _ => false
                         end) tr;
     export_presets_cfg := fun _ => None |}.

(** Every command and every directory creation succeeds; a copy is
    rejected when it is of a path onto itself. *)
Definition same_file_env : Env :=
  {| exec_status := fun _ _ _ => 0%Z;
     exec_rejects := true;
     mkdirP_error := fun _ _ => None;
     cp_error := fun _ source dest _ _ =>
       if String.eqb source dest
       then Some ("'" +:+ dest +:+ "' and '" +:+ source +:+ "' are the same file")
       else None;
     tree_at := fun _ _ => None;
     readdirSync := fun _ _ => Return ["game.x86_64"];
     existsSync := fun _ _ => true;
     export_presets_cfg := fun _ => None |}.

Definition artifact (p : ExportPreset) (archive : option string) : BuildResult :=
  {| preset := p;
     sanitizedName := sanitize (name p);
     executablePath :=
       path.join ["/home/runner/.local/share/godot/builds"; sanitize (name p);
                  path.basename (export_path p)];
     directoryEntryCount := 1;
     directory := path.join ["/home/runner/.local/share/godot/builds"; sanitize (name p)];
     archivePath := archive |}.

(** The engine binary three directories down, among three decoy
    directories. *)
Definition toolchain : fsnode :=
  Directory
    [("GodotSharp", Directory [("Api", Directory [])]);
     ("Godot_v4", Directory
        [("linux", Directory
           [("bin", Directory [("Godot_v4.2_linux.x86_64", RegFile)])])]);
     ("empty", Directory [])].

(** The same, with a text file next to the binary's folder. *)
Definition toolchain_with_text_file : fsnode :=
  Directory
    [("COPYRIGHT.txt", RegFile);
     ("Godot_v4", Directory
        [("linux", Directory
           [("bin", Directory [("Godot_v4.2_linux.x86_64", RegFile)])])])].

(** A disk with the bundled template and a settings file of the user. *)
Definition disk : Io.filesystem :=
  <["/action/dist/editor_settings-3.tres" := Io.EFile "template"]>
    (<["/home/runner/.config/godot/editor_settings-3.tres" := Io.EFile "mine"]>
       (<["/home/runner/.config/godot" := Io.EDir]>
          (<["/home/runner/.config" := Io.EDir]>
             (<["/home/runner" := Io.EDir]>
                (<["/home" := Io.EDir]> ∅))))).

End Sample.
(** ** Names for the parts of one round of [doExport] *)

Definition buildDir_of (cfg : Inputs) (p : ExportPreset) : string :=
  path.join [GODOT_BUILD_PATH cfg; sanitize (name p)].

Definition skip_warning (p : ExportPreset) : action :=
  Warning ("No file path set for preset " +:+ dquote +:+ name p
           +:+ dquote +:+ ". Skipping export!").

Definition built (cfg : Inputs) (p : ExportPreset) (out : string)
    (directoryEntries : list string) : BuildResult :=
  {| preset := p;
     sanitizedName := sanitize (name p);
     executablePath := out;
     directoryEntryCount := length directoryEntries;
     directory := buildDir_of cfg p;
     archivePath := None |}.

Definition no_presets_warning (cfg : Inputs) : action :=
  Warning ("No presets found in export_presets.cfg at "
           +:+ path.resolve (cwd cfg) (RELATIVE_PROJECT_PATH cfg)).




(** ** Plain file names *)

Fixpoint all_chars (P : ascii -> bool) (s : string) : bool :=
  match s with
  | EmptyString => true
  | String c s' => P c && all_chars P s'
  end.

Definition no_slash (s : string) : bool :=
  all_chars (fun c => negb (Ascii.eqb c path.slash)) s.

(** A single path segment that normalisation keeps as it is. *)
Definition plain (s : string) : Prop :=
  no_slash s = true /\ s <> "" /\ s <> "." /\ s <> "..".

(** What [path.join [base; s]] puts before a plain segment [s]. *)
Definition dir_prefix (base : string) : string :=
  if Js.truthy base then
    let isAbsolute := path.starts_with_slash base in
    (if isAbsolute then "/" else "")
      +:+ match List.rev (fold_left (path.norm_step (negb isAbsolute)) (path.split base) []) with
          | [] => ""
          | l => path.glue l +:+ "/"
          end
  else "".

(** Unfolds the sequencing of computations. *)
Ltac run :=
  unfold mbind, St_bind, mret, St_ret, bind, ret, throw, emit, ask, lift in *;
  cbn beta iota in *.

(** ** The executable search, as a function of the directory listing *)

(** The first loop of [findGodotExecutablePath] with the recursive call
    [search] taken as given. *)
Fixpoint scan_with (search : string -> fsnode -> outcome (option string))
    (basePath : string) (paths : list (string * fsnode))
    (dirs : list (outcome (option string))) : outcome (option string) :=
  match paths with
  | (subPath, node) :: rest =>
      let fullPath := path.join [basePath; subPath] in
      if isFile node
         && (String.eqb (path.extname fullPath) ".64"
             || String.eqb (path.extname fullPath) ".x86_64")
      then Return (Some fullPath)
      else scan_with search basePath rest (dirs ++ [search fullPath node])
  | [] =>
      match dirs with
      | found :: _ => found
      | [] => Return None
      end
  end.

(** [p] is the path of a regular file somewhere below [basePath], where [n]
    is what lies at [basePath]. *)
Inductive file_below : string -> fsnode -> string -> Prop :=
| file_here basePath entries subPath :
    In (subPath, RegFile) entries ->
    file_below basePath (Directory entries) (path.join [basePath; subPath])
| file_deeper basePath entries subPath child p :
    In (subPath, child) entries ->
    file_below (path.join [basePath; subPath]) child p ->
    file_below basePath (Directory entries) p.

(** An entry that the first loop returns. *)
Definition is_binary (basePath : string) (entry : string * fsnode) : bool :=
  isFile (snd entry) && Design.known_suffix (path.join [basePath; fst entry]).

(** A toolchain whose binaries lie next to a text file and to a folder
    that holds an older binary. *)
Definition flat_toolchain : fsnode :=
  Directory
    [("3.5", Directory [("Godot_v3.5_linux.64", RegFile)]);
     ("COPYRIGHT.txt", RegFile);
     ("Godot_v4.2_linux.64", RegFile);
     ("Godot_v4.2_linux.x86_64", RegFile)].

(** A preset has an export path. *)
Definition has_export_path (p : ExportPreset) : bool := Js.truthy (export_path p).

(** The artifact [doExport] records for a preset: what its fields are, up
    to the number of directory entries. *)
Definition artifact_of (cfg : Inputs) (r : BuildResult) : Prop :=
  sanitizedName r = sanitize (name (preset r))
  /\ directory r = buildDir_of cfg (preset r)
  /\ archivePath r = None
  /\ executablePath r
     = pck_suffix cfg (path.join [buildDir_of cfg (preset r);
                                  path.basename (export_path (preset r))]).

(** ** Reading relocations *)

(** The external commands a trace runs. *)
Definition commands (tr : list action) : list (string * list string) :=
  flat_map (fun a => match a with
                     | Exec prog args => [(prog, args)]
                     | _ => []
                     end) tr.

(** Where an artifact's build folder and output file are after relocation
    of the raw output. *)
Definition relocated_raw (cfg : Inputs) (br : BuildResult) : BuildResult :=
  let directory' := path.join [File.fullExportPath cfg br; path.basename (directory br)] in
  {| preset := preset br;
     sanitizedName := sanitizedName br;
     executablePath := path.join [directory'; path.basename (executablePath br)];
     directoryEntryCount := directoryEntryCount br;
     directory := directory';
     archivePath := archivePath br |}.



(** ** Environments in which the file operations go through *)




(** [io.cp] never copies a path onto itself. *)
Definition cp_rejects_same_path (env : Env) : Prop :=
  forall t p, cp_error env t p p false true <> None.


(** ** The engine version ([getGodotVersion] of [src/godot.ts]) *)

Module JsText.

(** White space and line terminators among the code units below 256: what
    [trim] removes. *)
Definition is_whitespace (c : ascii) : bool :=
  existsb (Nat.eqb (Js.code c)) [9; 10; 11; 12; 13; 32; 160].

(** [s.trim()] *)
Definition trim (s : string) : string :=
  Js.rev (Sanitize.drop_while is_whitespace
            (Js.rev (Sanitize.drop_while is_whitespace s))).

(** [s.includes(pat)] *)
Fixpoint includes (pat s : string) : bool :=
  String.prefix pat s
  || match s with
     | String _ s' => includes pat s'
     | EmptyString => false
     end.

Fixpoint take (n : nat) (s : string) : string :=
  match n, s with
  | S n', String c s' => String c (take n' s')
  | _, _ => EmptyString
  end.

(** The class [a-z0-9]. *)
Definition lower_alnum (c : ascii) : bool :=
  let n := Js.code c in
  (Nat.leb 48 n && Nat.leb n 57) || (Nat.leb 97 n && Nat.leb n 122).

(** Replacement by nothing of the pattern made of a dot and nine
    characters of [a-z0-9] at the end of the string. *)
Definition strip_commit_hash (s : string) : string :=
  let r := Js.rev s in
  match Js.drop 9 r with
  | String d rest =>
      if Nat.eqb (String.length (take 9 r)) 9
         && all_chars lower_alnum (take 9 r)
         && Ascii.eqb d "."
      then Js.rev rest
      else s
  | EmptyString => s
  end.

End JsText.

Section Version.

(** What [godot --version] writes to its standard output. *)
Variable version_stdout : list action -> string.

(** The normalisation of the version that was read. *)
Definition normalize_version (version : string) : string :=
  JsText.strip_commit_hash
    (Js.replace ".custom_build" "" (Js.replace ".official" "" (JsText.trim version))).

(** [getGodotVersion]; the engine is run with [ignoreReturnCode], so its
    exit status plays no part. *)
Definition getGodotVersion : M string :=
  fun tr =>
    let version := normalize_version (version_stdout tr) in
    let tr' := tr ++ [Exec "godot" ["--version"]] in
    if negb (Js.truthy version)
    then (Throw "Godot version could not be determined.", tr')
    else (Return version, tr').

End Version.

Definition newline : string := String (ascii_of_nat 10) EmptyString.

(** The endings of a string after its first character, longest first. *)
Fixpoint proper_tails (s : string) : list string :=
  match s with
  | EmptyString => []
  | String _ s' => s' :: proper_tails s'
  end.

(** ** Wine settings ([configureWindowsExport] of [src/godot.ts]) *)

Module NodeFs.

(** [fs.writeFileSync(p, data, { flag: 'a' })] on the disk: the data is
    appended to a regular file, a missing file is created in an existing
    folder, and a folder at the path or a missing parent folder is an
    error. *)
Definition appendFileSync (cwd p data : string) : St Io.filesystem unit :=
  fun fs =>
    let key := path.resolve cwd p in
    match fs !! key with
    | Some (Io.EFile content) => (Return tt, <[key := Io.EFile (content +:+ data)]> fs)
    | Some Io.EDir =>
        (Throw ("EISDIR: illegal operation on a directory, open '" +:+ p +:+ "'"), fs)
    | None =>
        if String.eqb (path.dirname key) "/"
           || match fs !! path.dirname key with
              | Some Io.EDir => true
              | _ => false
              end
        then (Return tt, <[key := Io.EFile data]> fs)
        else (Throw ("ENOENT: no such file or directory, open '" +:+ p +:+ "'"), fs)
    end.

(** [fs.readFileSync(p, { encoding: 'utf-8' })] *)
Definition readFileSync (cwd p : string) : St Io.filesystem string :=
  fun fs =>
    match fs !! path.resolve cwd p with
    | Some (Io.EFile content) => (Return content, fs)
    | Some Io.EDir =>
        (Throw ("EISDIR: illegal operation on a directory, read"), fs)
    | None => (Throw ("ENOENT: no such file or directory, open '" +:+ p +:+ "'"), fs)
    end.

End NodeFs.

Section WindowsExport.

Variable cfg : Inputs.

Definition rcedit_line : string :=
  "export/windows/rcedit = " +:+ dquote
    +:+ path.join [dirname__ cfg; "rcedit-x64.exe"] +:+ dquote +:+ newline.

Definition wine_line : string :=
  "export/windows/wine = " +:+ dquote +:+ WINE_PATH cfg +:+ dquote +:+ newline.

(** [configureWindowsExport], run on the disk; the file is read back only
    to be logged. *)
Definition configureWindowsExport : St Io.filesystem unit :=
  let editorSettingsPath := path.join [GODOT_CONFIG_PATH cfg; EDITOR_SETTINGS_FILENAME cfg] in
  _ ← NodeFs.appendFileSync (cwd cfg) editorSettingsPath rcedit_line;
  _ ← NodeFs.appendFileSync (cwd cfg) editorSettingsPath wine_line;
  _ ← NodeFs.readFileSync (cwd cfg) editorSettingsPath;
  mret tt.

(** The two steps on the settings file as [exportBuilds] runs them when a
    Wine path is set. *)
Definition settings_with_wine : St Io.filesystem unit :=
  _ ← addEditorSettings cfg;
  configureWindowsExport.

End WindowsExport.

(** ** The commands of the Steam assembly *)

(** What [assembleSteamContentsFor] of the later packaging stage runs for a
    preset and a build path, one command after the other. *)
Definition steam_assembly (cfg : Inputs) (p : ExportPreset) (buildDir : string)
  : list (string * list string) :=
  let libPath := STEAM_SDK_TARGET_PATH cfg (platform p) in
  if String.eqb (platform p) (DESKTOP_PLATFORMS_macOS cfg) then
    let bundle := Js.replace ".zip" ".app" buildDir in
    let macOSPath := path.join [bundle; "Contents"; "MacOS"] in
    [("unzip", ["-q"; buildDir; "-d";
                Js.replace (path.basename (export_path p)) "" buildDir]);
     ("rm", [buildDir]);
     ("ls", [bundle]);
     ("cp", [STEAM_APPID_PATH cfg; macOSPath]);
     ("mv", [libPath; macOSPath]);
     ("7z", ["a"; bundle; buildDir])]
  else
    [("cp", [STEAM_APPID_PATH cfg; buildDir]);
     ("mv", [libPath; buildDir])].

(** A project with a preset named [..], exported to [game.x86_64], and a
    preset named [game.x86_64]; a directory cannot be created where the
    engine has written an output file. *)
Module Collision.

Definition dots : ExportPreset :=
  {| name := ".."; platform := "Linux/X11"; export_path := "game.x86_64" |}.
Definition second : ExportPreset :=
  {| name := "game.x86_64"; platform := "Linux/X11"; export_path := "out/game.x86_64" |}.

Definition written (tr : list action) (p : string) : bool :=
  existsb (fun a => match a with
                    | Exec prog args => String.eqb prog "godot" && String.eqb (List.last args "") p
                    | _ => false
                    end) tr.

Definition env : Env :=
  {| exec_status := fun _ _ _ => 0%Z;
     exec_rejects := true;
     mkdirP_error := fun tr dir =>
       if written tr dir
       then Some ("EEXIST: file already exists, mkdir '" +:+ dir +:+ "'")
       else None;
     cp_error := fun _ _ _ _ _ => None;
     tree_at := fun _ _ => None;
     readdirSync := fun _ _ => Return ["game.x86_64"];
     existsSync := fun _ _ => false;
     export_presets_cfg := fun _ => None |}.

End Collision.

(** * Properties *)

(** ** The path functions on examples *)

Example join_ex1 : path.join ["/home/u/.local/share/godot"; "builds"]
                   = "/home/u/.local/share/godot/builds".
Proof. reflexivity. Qed.
Example join_ex2 : path.join ["a/b/"; "../c"; ""; "./d/"] = "a/c/d/".
Proof. reflexivity. Qed.
Example join_ex3 : path.join [""; ""] = ".".
Proof. reflexivity. Qed.
Example join_ex4 : path.join ["/home/u"; "/.config/godot"] = "/home/u/.config/godot".
Proof. reflexivity. Qed.
Example normalize_ex1 : path.normalize "../../a/../../b//c/." = "../../../b/c".
Proof. reflexivity. Qed.
Example normalize_ex2 : path.normalize "/../a/./" = "/a/".
Proof. reflexivity. Qed.
Example resolve_ex1 : path.resolve "/work" "./proj/" = "/work/proj".
Proof. reflexivity. Qed.
Example resolve_ex2 : path.resolve "/work" "/abs/../x" = "/x".
Proof. reflexivity. Qed.
Example resolve_ex3 : path.resolve "/work" "" = "/work".
Proof. reflexivity. Qed.
Example basename_ex1 : path.basename "build/linux/game.x86_64" = "game.x86_64".
Proof. reflexivity. Qed.
Example basename_ex2 : path.basename "a//b//" = "b".
Proof. reflexivity. Qed.
Example basename_ex3 : path.basename "///" = "".
Proof. reflexivity. Qed.
Example dirname_ex1 : path.dirname "build/linux/game.x86_64" = "build/linux".
Proof. reflexivity. Qed.
Example dirname_ex2 : path.dirname "game.exe" = ".".
Proof. reflexivity. Qed.
Example dirname_ex3 : path.dirname "/game" = "/".
Proof. reflexivity. Qed.
Example dirname_ex4 : path.dirname "a//b" = "a/".
Proof. reflexivity. Qed.
Example dirname_ex5 : path.dirname "//a" = "//".
Proof. reflexivity. Qed.
Example extname_ex1 : path.extname "/x/Godot_v3.5_linux_headless.64" = ".64".
Proof. reflexivity. Qed.
Example extname_ex2 : path.extname "/x/.bashrc" = "".
Proof. reflexivity. Qed.
Example extname_ex3 : path.extname "/x/.." = "".
Proof. reflexivity. Qed.
Example extname_ex4 : path.extname "a./" = ".".
Proof. reflexivity. Qed.
Example extname_ex5 : path.extname "x/..a" = ".a".
Proof. reflexivity. Qed.
Example extname_ex6 : path.extname "x.d/godot" = "".
Proof. reflexivity. Qed.
Example replace_ex1 : Js.replace ".zip" ".app" "/b/mac/game.zip" = "/b/mac/game.app".
Proof. reflexivity. Qed.
Example dot_app_ex1 : Js.match_dot_app_end "build/game.app" = true.
Proof. reflexivity. Qed.
Example dot_app_ex2 : Js.match_dot_app_end "build/snapp" = true.
Proof. reflexivity. Qed.
Example dot_app_ex3 : Js.match_dot_app_end "app" = false.
Proof. reflexivity. Qed.
Example sanitize_ex1 : sanitize "Windows Desktop" = "Windows Desktop".
Proof. reflexivity. Qed.
Example sanitize_ex2 : sanitize "HTML5/web: beta?" = "HTML5web beta".
Proof. reflexivity. Qed.
Example sanitize_ex3 : sanitize ".." = "".
Proof. reflexivity. Qed.
Example sanitize_ex4 : sanitize "COM1.txt" = "".
Proof. reflexivity. Qed.
Example sanitize_ex5 : sanitize "Linux. . " = "Linux".
Proof. reflexivity. Qed.
Example sanitize_ex6 : sanitize "console" = "console".
Proof. reflexivity. Qed.

(** ** Traces and joined paths: basic facts *)

Lemma godot_calls_app (t1 t2 : list action) :
  godot_calls (t1 ++ t2) = godot_calls t1 ++ godot_calls t2.
Proof. unfold godot_calls. by rewrite flat_map_app. Qed.



Lemma string_eqb_false (a b : string) : String.eqb a b = false -> a <> b.
Proof. intros H. by apply String.eqb_neq. Qed.

Lemma append_nonempty_r (a b : string) : b <> "" -> a +:+ b <> "".
Proof. destruct a; simpl; [done | discriminate]. Qed.

Lemma append_nonempty_l (a b : string) : a <> "" -> a +:+ b <> "".
Proof. destruct a; simpl; [done | discriminate]. Qed.

Lemma normalize_nonempty (p : string) : path.normalize p <> "".
Proof.
  unfold path.normalize.
  destruct (String.eqb p ""); [discriminate |].
  destruct (String.eqb (path.normalizeString p _) "") eqn:Hq.
  - destruct (path.starts_with_slash p); [discriminate |].
    destruct (path.ends_with_slash p); discriminate.
  - apply string_eqb_false in Hq.
    destruct (path.starts_with_slash p); cbn [negb] in *;
      destruct (path.ends_with_slash p); try discriminate; try done.
    by apply append_nonempty_l.
Qed.

Lemma join_nonempty (args : list string) : path.join args <> "".
Proof.
  unfold path.join. destruct (List.filter Js.truthy args); [discriminate |].
  apply normalize_nonempty.
Qed.

Lemma join_truthy (args : list string) : Js.truthy (path.join args) = true.
Proof.
  unfold Js.truthy. destruct (String.eqb (path.join args) "") eqn:H; [| done].
  apply String.eqb_eq in H. by apply join_nonempty in H.
Qed.

(** A preset has an output path exactly when its export path is set. *)
Lemma executablePath_of_Some cfg p base :
  executablePath_of cfg p = Some base ->
  Js.truthy (export_path p) = true /\ Js.truthy base = true.
Proof.
  unfold executablePath_of. destruct (Js.truthy (export_path p)); [| discriminate].
  intros [= <-]. split; [done | apply join_truthy].
Qed.

Lemma executablePath_of_None cfg p :
  Js.truthy (export_path p) = false -> executablePath_of cfg p = None.
Proof. unfold executablePath_of. by intros ->. Qed.

(** The code's mode flag is the decision table's. *)
Lemma exportFlag_table cfg :
  exportFlag cfg
  = Design.mode_flag (USE_GODOT_4 cfg) (EXPORT_PACK_ONLY cfg) (EXPORT_DEBUG cfg).
Proof.
  unfold exportFlag, Design.mode_flag.
  by destruct (USE_GODOT_4 cfg), (EXPORT_PACK_ONLY cfg), (EXPORT_DEBUG cfg).
Qed.

(** ** One round of the export loop *)

Lemma doExport_loop_skip cfg env p rest acc tr :
  Js.truthy (export_path p) = false ->
  doExport_loop cfg env (p :: rest) acc tr
  = doExport_loop cfg env rest acc (tr ++ [skip_warning p]).
Proof.
  intros Hp. cbn [doExport_loop]. rewrite (executablePath_of_None _ _ Hp).
  reflexivity.
Qed.

Lemma doExport_loop_export cfg env p rest acc base tr :
  executablePath_of cfg p = Some base ->
  let out := pck_suffix cfg base in
  let tr1 := tr ++ [MkdirP (buildDir_of cfg p)] in
  let tr2 := tr1 ++ [Exec "godot" (export_args cfg p out)] in
  doExport_loop cfg env (p :: rest) acc tr
  = match mkdirP_error env tr (buildDir_of cfg p) with
    | Some msg => (Throw msg, tr1)
    | None =>
        if Z.eqb (exec_status env tr1 "godot" (export_args cfg p out)) 0
        then match readdirSync env tr2 (buildDir_of cfg p) with
             | Return entries =>
                 doExport_loop cfg env rest (acc ++ [built cfg p out entries]) tr2
             | Throw msg => (Throw msg, tr2)
             end
        else (Throw (if exec_rejects env then "The process 'godot' failed"
                     else "1 or more exports failed"), tr2)
    end.
Proof.
  intros Hexe out tr1 tr2. destruct (executablePath_of_Some _ _ _ Hexe) as [_ Hb].
  cbn [doExport_loop]. rewrite Hexe. cbn [Js.truthy_opt default].
  rewrite Hb. cbn [negb]. run. unfold mkdirP, readdir, exec.
  fold (buildDir_of cfg p). fold tr1. change (id base) with base. fold out.
  destruct (mkdirP_error env tr (buildDir_of cfg p)) as [msg |]; [reflexivity |].
  fold tr2.
  destruct (Z.eqb (exec_status env tr1 "godot" (export_args cfg p out)) 0) eqn:Hst.
  - rewrite andb_false_r. cbn. rewrite Hst. cbn.
    by destruct (readdirSync env tr2 (buildDir_of cfg p)).
  - destruct (exec_rejects env); cbn; [reflexivity |]. rewrite Hst. reflexivity.
Qed.

Lemma doExport_loop_app cfg env pre rest acc tr :
  doExport_loop cfg env (pre ++ rest) acc tr
  = match doExport_loop cfg env pre acc tr with
    | (Return acc', tr') => doExport_loop cfg env rest acc' tr'
    | (Throw msg, tr') => (Throw msg, tr')
    end.
Proof.
  revert acc tr. induction pre as [| p pre IH]; intros acc tr; [reflexivity |].
  rewrite <- app_comm_cons.
  destruct (executablePath_of cfg p) as [base |] eqn:Hexe.
  - rewrite !(doExport_loop_export _ _ _ _ _ _ _ Hexe). cbv zeta.
    destruct (mkdirP_error env tr _); [reflexivity |].
    destruct (Z.eqb _ 0); [| reflexivity].
    destruct (readdirSync env _ _); [apply IH | reflexivity].
  - assert (Js.truthy (export_path p) = false) as Hp.
    { unfold executablePath_of in Hexe. by destruct (Js.truthy (export_path p)). }
    rewrite !(doExport_loop_skip _ _ _ _ _ _ Hp). apply IH.
Qed.

(** What the loop has done for a single preset with an export path, once
    its build directory is created: it has invoked the engine, whatever
    comes of it. *)
Lemma doExport_loop_one_trace cfg env p base tr :
  executablePath_of cfg p = Some base ->
  mkdirP_error env tr (buildDir_of cfg p) = None ->
  snd (doExport_loop cfg env [p] [] tr)
  = (tr ++ [MkdirP (buildDir_of cfg p)])
    ++ [Exec "godot" (export_args cfg p (pck_suffix cfg base))].
Proof.
  intros Hexe Hdir. rewrite (doExport_loop_export _ _ _ _ _ _ _ Hexe), Hdir. cbv zeta.
  destruct (Z.eqb _ 0); [| reflexivity]. by destruct (readdirSync env _ _).
Qed.

(** ** The export invocation (section 4.3) *)

(** C1, as the code has it: for every combination of engine version, debug
    and pack-only, the one engine invocation made for a preset with an
    export path has the arguments [projectFile, modeFlag, presetName,
    outputPath], with [--headless] inserted right after the project file
    for the current version and [--verbose] appended when asked for; the
    mode flag is the one of the decision table; and [.pck] is appended to
    the output path whenever pack-only is requested, under either engine
    version.  The invocation is made unless the build directory cannot be
    created, in which case nothing is invoked. *)
Theorem C1_export_invocation_follows_the_table cfg env p base tr :
  executablePath_of cfg p = Some base ->
  godot_calls (trace_of (doExport_loop cfg env [p] []) tr)
  = godot_calls tr
    ++ match mkdirP_error env tr (buildDir_of cfg p) with
       | Some _ => []
       | None =>
           [ [GODOT_PROJECT_FILE_PATH cfg]
             ++ (if USE_GODOT_4 cfg then ["--headless"] else [])
             ++ [Design.mode_flag (USE_GODOT_4 cfg) (EXPORT_PACK_ONLY cfg) (EXPORT_DEBUG cfg);
                 name p;
                 if EXPORT_PACK_ONLY cfg then base +:+ ".pck" else base]
             ++ (if GODOT_VERBOSE cfg then ["--verbose"] else []) ]
       end.
Proof.
  intros Hexe. unfold trace_of.
  destruct (mkdirP_error env tr (buildDir_of cfg p)) as [msg |] eqn:Hdir.
  - rewrite (doExport_loop_export _ _ _ _ _ _ _ Hexe), Hdir. cbn [snd].
    by rewrite godot_calls_app.
  - rewrite (doExport_loop_one_trace _ _ _ _ _ Hexe Hdir).
    rewrite !godot_calls_app. cbn. rewrite app_nil_r. f_equal. f_equal.
    unfold export_args, pck_suffix. rewrite exportFlag_table.
    by destruct (USE_GODOT_4 cfg), (GODOT_VERBOSE cfg).
Qed.

(** C1 as the document states it fails: for the legacy version with
    pack-only the output path does get the [.pck] suffix. *)
Lemma C1_counterexample_legacy_pack_only :
  let cfg := Sample.inputs false false true false in
  let base := "/home/runner/.local/share/godot/builds/Linux/game.x86_64" in
  executablePath_of cfg Sample.linux = Some base
  /\ godot_calls (trace_of (doExport_loop cfg (Sample.env None None) [Sample.linux] []) [])
     <> [Design.invocation cfg Sample.linux base].
Proof.
  split; [reflexivity |]. vm_compute. discriminate.
Qed.

(** ** The executable search (section 4.1) *)

(** C2: the search descends into the first entry it has put aside and into
    no other, so on a tree with the engine binary three directories down,
    behind a decoy directory, it returns [undefined] and provisioning stops
    with the not-found error, although a depth-first traversal finds the
    binary.  With a text file ahead of the binary's folder the search
    lists the text file as a directory and throws. *)
Theorem C2_search_stops_at_first_directory :
  let cfg := Sample.inputs true false false false in
  let zipTo := "/home/runner/.local/share/godot/godot_executable" in
  let binary := zipTo +:+ "/Godot_v4/linux/bin/Godot_v4.2_linux.x86_64" in
  Design.depth_first_search zipTo Sample.toolchain = Some binary
  /\ findGodotExecutablePath zipTo Sample.toolchain = Return None
  /\ result_of (prepareExecutable cfg (Sample.env None (Some Sample.toolchain))) []
     = Throw "Could not find Godot executable"
  /\ Design.depth_first_search zipTo Sample.toolchain_with_text_file = Some binary
  /\ findGodotExecutablePath zipTo Sample.toolchain_with_text_file
     = Throw ("ENOTDIR: not a directory, scandir '" +:+ zipTo +:+ "/COPYRIGHT.txt'").
Proof. vm_compute. repeat split. Qed.

(** ** Failing and skipped presets (section 4.3) *)

Lemma doExport_run cfg env presets tr0 tr :
  getExportPresets cfg env tr0 = (Return presets, tr) ->
  doExport cfg env tr0 = doExport_loop cfg env presets [] tr.
Proof. intros H. unfold doExport. run. by rewrite H. Qed.

(** C6: when the engine returns a non-zero status for a preset, after the
    presets before it went through, [doExport] ends in an exception: no
    list of artifacts is returned, and the failing invocation is the last
    thing done, so nothing is run for the presets after it.  (When the
    build directory of that preset cannot be created, [doExport] ends in
    an exception one step earlier, before the invocation.) *)
Theorem C6_nonzero_exit_aborts_export cfg env tr0 tr pre p post before tr' base :
  getExportPresets cfg env tr0 = (Return (pre ++ p :: post), tr) ->
  doExport_loop cfg env pre [] tr = (Return before, tr') ->
  executablePath_of cfg p = Some base ->
  exec_status env (tr' ++ [MkdirP (buildDir_of cfg p)]) "godot"
    (export_args cfg p (pck_suffix cfg base)) <> 0%Z ->
  exists msg,
    doExport cfg env tr0
    = (Throw msg,
       tr' ++ MkdirP (buildDir_of cfg p)
              :: match mkdirP_error env tr' (buildDir_of cfg p) with
                 | Some _ => []
                 | None => [Exec "godot" (export_args cfg p (pck_suffix cfg base))]
                 end).
Proof.
  intros Hget Hpre Hexe Hst.
  rewrite (doExport_run _ _ _ _ _ Hget), doExport_loop_app, Hpre.
  rewrite (doExport_loop_export _ _ _ _ _ _ _ Hexe). cbv zeta.
  destruct (mkdirP_error env tr' (buildDir_of cfg p)) as [msg |]; [by eexists |].
  apply Z.eqb_neq in Hst. rewrite Hst. rewrite <- app_assoc. eauto.
Qed.

(** What a run of the loop that returns has done: it added one artifact
    for each preset with an export path, in order, with the fields derived
    from the preset; it logged one warning for each preset without an
    export path, in order, and no other; and it created one build
    directory and made one engine invocation for each artifact. *)
Lemma doExport_loop_returned cfg env presets acc tr results tr' :
  doExport_loop cfg env presets acc tr = (Return results, tr') ->
  exists new ext,
    results = acc ++ new /\ tr' = tr ++ ext
    /\ List.map preset new = List.filter has_export_path presets
    /\ Forall (artifact_of cfg) new
    /\ List.map Warning (warnings ext)
       = List.map skip_warning (List.filter (fun q => negb (has_export_path q)) presets)
    /\ godot_calls ext
       = List.map (fun r => export_args cfg (preset r) (executablePath r)) new
    /\ mkdirs_of ext = List.map directory new.
Proof.
  revert acc tr. induction presets as [| p presets IH]; intros acc tr Hrun.
  - cbn in Hrun. injection Hrun as <- <-. exists [], [].
    rewrite !app_nil_r. repeat split; constructor.
  - destruct (executablePath_of cfg p) as [base |] eqn:Hexe.
    + rewrite (doExport_loop_export _ _ _ _ _ _ _ Hexe) in Hrun. cbv zeta in Hrun.
      destruct (mkdirP_error env tr _); [discriminate |].
      destruct (Z.eqb _ 0); [| discriminate].
      destruct (readdirSync env _ _) as [entries | msg]; [| discriminate].
      apply IH in Hrun as (new & ext & -> & -> & Hpresets & Hfields & Hwarn & Hcalls & Hdirs).
      destruct (executablePath_of_Some _ _ _ Hexe) as [Hp _].
      exists (built cfg p (pck_suffix cfg base) entries :: new),
             (MkdirP (buildDir_of cfg p)
              :: Exec "godot" (export_args cfg p (pck_suffix cfg base)) :: ext).
      split; [by rewrite <- app_assoc |].
      split; [by rewrite <- !app_assoc |].
      unfold has_export_path in *. cbn [List.filter List.map]. rewrite Hp. cbn [negb].
      split; [cbn; by rewrite Hpresets |].
      split.
      { constructor; [| exact Hfields]. unfold artifact_of, built. cbn.
        repeat split. unfold executablePath_of in Hexe. rewrite Hp in Hexe.
        by injection Hexe as <-. }
      split; [exact Hwarn |].
      split; [| unfold mkdirs_of in *; cbn; by rewrite Hdirs].
      unfold godot_calls in *. cbn. by rewrite Hcalls.
    + assert (Js.truthy (export_path p) = false) as Hp.
      { unfold executablePath_of in Hexe. by destruct (Js.truthy (export_path p)). }
      rewrite (doExport_loop_skip _ _ _ _ _ _ Hp) in Hrun.
      apply IH in Hrun as (new & ext & -> & -> & Hpresets & Hfields & Hwarn & Hcalls & Hdirs).
      exists new, (skip_warning p :: ext).
      split; [done |]. split; [by rewrite <- app_assoc |].
      unfold has_export_path in *. cbn [List.filter List.map]. rewrite Hp. cbn [negb].
      split; [exact Hpresets |]. split; [exact Hfields |].
      split; [unfold warnings in *; cbn; by rewrite Hwarn |]. by split.
Qed.

(** The artifacts a run of the loop adds all come from presets of the list
    that have an export path. *)
Lemma doExport_loop_results cfg env presets acc tr results tr' :
  doExport_loop cfg env presets acc tr = (Return results, tr') ->
  exists new,
    results = acc ++ new
    /\ Forall (fun r => In (preset r) presets
                        /\ Js.truthy (export_path (preset r)) = true) new.
Proof.
  intros Hrun.
  apply doExport_loop_returned in Hrun as (new & ext & -> & _ & Hpresets & _).
  exists new. split; [done |]. apply List.Forall_forall. intros r Hr.
  assert (In (preset r) (List.filter has_export_path presets)) as Hin.
  { rewrite <- Hpresets. by apply in_map. }
  apply filter_In in Hin as [Hin Hpath]. by split.
Qed.

(** C7: a preset whose export path is empty is answered by a warning and
    nothing else.  On its own it leaves the artifacts collected so far as
    they are and adds the warning to the log, without an engine invocation
    and without an exception; ahead of other presets, the loop goes on
    with them after the warning.  No artifact that [doExport] returns
    belongs to such a preset, so none reaches packaging or relocation; and
    whenever the loop returns, its log holds the warning for this preset:
    the warnings it logged are those of the presets without an export
    path, one each and in order, and the artifacts it added are those of
    the presets with one. *)
Theorem C7_empty_export_path_is_skipped cfg env p :
  export_path p = "" ->
  (forall acc tr, doExport_loop cfg env [p] acc tr = (Return acc, tr ++ [skip_warning p]))
  /\ (forall rest acc tr,
         doExport_loop cfg env (p :: rest) acc tr
         = doExport_loop cfg env rest acc (tr ++ [skip_warning p]))
  /\ (forall tr results tr',
         doExport cfg env tr = (Return results, tr') ->
         Forall (fun r => preset r <> p) results)
  /\ (forall presets acc tr results tr',
         In p presets ->
         doExport_loop cfg env presets acc tr = (Return results, tr') ->
         exists new ext,
           results = acc ++ new /\ tr' = tr ++ ext
           /\ In (skip_warning p) ext
           /\ List.map Warning (warnings ext)
              = List.map skip_warning
                  (List.filter (fun q => negb (has_export_path q)) presets)
           /\ List.map preset new = List.filter has_export_path presets).
Proof.
  intros Hp.
  assert (Js.truthy (export_path p) = false) as Hfalse by by rewrite Hp.
  split; [| split; [| split]].
  - intros acc tr. by rewrite (doExport_loop_skip _ _ _ _ _ _ Hfalse).
  - intros rest acc tr. by apply doExport_loop_skip.
  - intros tr results tr' Hrun. unfold doExport in Hrun. run.
    destruct (getExportPresets cfg env tr) as [[presets | msg] tr1]; [| discriminate].
    apply doExport_loop_results in Hrun as (new & -> & Hnew). cbn.
    eapply Forall_impl; [exact Hnew |]. cbn. intros r [_ Hr] Heq.
    rewrite Heq, Hp in Hr. discriminate.
  - intros presets acc tr results tr' Hin Hrun.
    apply doExport_loop_returned in Hrun
      as (new & ext & -> & -> & Hpresets & _ & Hwarn & _).
    exists new, ext. repeat split; try done.
    assert (In (skip_warning p)
              (List.map skip_warning
                 (List.filter (fun q => negb (has_export_path q)) presets))) as Hlogged.
    { apply in_map, filter_In. split; [done |]. unfold has_export_path. by rewrite Hfalse. }
    rewrite <- Hwarn in Hlogged. apply in_map_iff in Hlogged as (msg & Hmsg & Hlogged).
    rewrite <- Hmsg. unfold warnings in Hlogged.
    apply in_flat_map in Hlogged as (a & Ha & Hmsg').
    destruct a; cbn in Hmsg'; try done. by destruct Hmsg' as [<- | []].
Qed.

(** ** A presets file without presets *)

(** C10, as the code has it: when [export_presets.cfg] exists and decodes
    to a value without a [preset] table, [getExportPresets] warns and
    returns the empty list without an exception, and [doExport] then
    returns no artifact, having done nothing but warn.  When the [preset]
    table is there but empty, both return the empty list as well, without
    an exception, and without the warning. *)
Theorem C10_no_presets_warns_and_returns_empty cfg env tr file :
  export_presets_cfg env tr = Some file ->
  (preset_table file = None ->
   getExportPresets cfg env tr = (Return [], tr ++ [no_presets_warning cfg])
   /\ doExport cfg env tr = (Return [], tr ++ [no_presets_warning cfg]))
  /\ (preset_table file = Some [] ->
      getExportPresets cfg env tr = (Return [], tr)
      /\ doExport cfg env tr = (Return [], tr)).
Proof.
  intros Hcfg. destruct file as [table]. cbn [preset_table].
  split; intros ->.
  - assert (getExportPresets cfg env tr = (Return [], tr ++ [no_presets_warning cfg])) as Hget.
    { unfold getExportPresets, hasExportPresets. run. rewrite Hcfg.
      rewrite bool_decide_eq_true_2 by eauto. cbn. by rewrite Hcfg. }
    split; [exact Hget |]. by rewrite (doExport_run _ _ _ _ _ Hget).
  - assert (getExportPresets cfg env tr = (Return [], tr)) as Hget.
    { unfold getExportPresets, hasExportPresets. run. rewrite Hcfg.
      rewrite bool_decide_eq_true_2 by eauto. cbn. by rewrite Hcfg. }
    split; [exact Hget |]. by rewrite (doExport_run _ _ _ _ _ Hget).
Qed.

(** C10 as the document states it fails: a presets file whose [preset]
    table is there but empty holds no preset either, and for it neither
    [getExportPresets] nor [doExport] logs the warning. *)
Lemma C10_counterexample_empty_table_is_silent :
  let cfg := Sample.inputs true false false false in
  let env := Sample.env (Some {| preset_table := Some [] |}) None in
  getExportPresets cfg env [] = (Return [], [])
  /\ doExport cfg env [] = (Return [], [])
  /\ warnings (trace_of (doExport cfg env) []) = [].
Proof. vm_compute. repeat split. Qed.

(** ** Packaging (section 4.4) *)

Lemma File_zip_returns cfg env br tr br1 tr1 :
  File.zipBuildResult cfg env br tr = (Return br1, tr1) ->
  br1 = with_archivePath br (zipPath_of cfg br).
Proof.
  unfold File.zipBuildResult. run. unfold mkdirP, start_cp, await, exec. run.
  destruct (mkdirP_error env tr _); [discriminate |].
  destruct (File.isMac cfg br && negb (File.endsInDotApp br)); cbn.
  - destruct (cp_error env _ _ _ _ _); cbn; [discriminate | by intros [= <- _]].
  - destruct (existsSync env _ _); cbn; [by intros [= <- _] |].
    destruct (exec_rejects env && _); cbn; [discriminate | by intros [= <- _]].
Qed.

Lemma File_zip_present cfg env br tr :
  File.isMac cfg br && negb (File.endsInDotApp br) = false ->
  mkdirP_error env tr (GODOT_ARCHIVE_PATH cfg) = None ->
  existsSync env (tr ++ [MkdirP (GODOT_ARCHIVE_PATH cfg)]) (zipPath_of cfg br) = true ->
  File.zipBuildResult cfg env br tr
  = (Return (with_archivePath br (zipPath_of cfg br)),
     tr ++ [MkdirP (GODOT_ARCHIVE_PATH cfg)]).
Proof.
  intros Hmac Hdir Hex. unfold File.zipBuildResult. run. unfold mkdirP.
  rewrite Hdir, Hmac. cbn. by rewrite Hex.
Qed.

(** For a macOS flat archive the plain stage starts the copy whatever is
    on disk. *)
Lemma File_zip_mac cfg env br tr :
  File.isMac cfg br && negb (File.endsInDotApp br) = true ->
  mkdirP_error env tr (GODOT_ARCHIVE_PATH cfg) = None ->
  let macPath := path.join [directory br; path.basename (export_path (preset br))] in
  File.zipBuildResult cfg env br tr
  = (match cp_error env (tr ++ [MkdirP (GODOT_ARCHIVE_PATH cfg)])
             macPath (zipPath_of cfg br) false true with
     | Some msg => Throw msg
     | None => Return (with_archivePath br (zipPath_of cfg br))
     end,
     tr ++ [MkdirP (GODOT_ARCHIVE_PATH cfg); Cp macPath (zipPath_of cfg br) false true]).
Proof.
  intros Hmac Hdir macPath. unfold File.zipBuildResult. run. unfold mkdirP, start_cp, await.
  rewrite Hdir, Hmac. cbn. fold macPath. rewrite <- app_assoc.
  by destruct (cp_error env _ macPath _ _ _).
Qed.

Lemma FileSteam_zip_returns cfg env br tr br1 tr1 :
  FileSteam.zipBuildResult cfg env br tr = (Return br1, tr1) ->
  br1 = with_archivePath br (zipPath_of cfg br).
Proof.
  unfold FileSteam.zipBuildResult. run. unfold mkdirP, start_cp, await, exec. run.
  destruct (mkdirP_error env tr _); [discriminate |].
  destruct (FileSteam.isMac br && negb (FileSteam.endsInDotApp br)); cbn.
  - destruct (FileSteam.assembleSteamContentsFor _ _ _ _ _) as [[[] | msg] tr']; cbn;
      [| discriminate].
    destruct (cp_error env _ _ _ _ _); cbn; [discriminate | by intros [= <- _]].
  - destruct (existsSync env _ _); cbn; [by intros [= <- _] |].
    destruct (FileSteam.isDesktop cfg br); cbn.
    + destruct (FileSteam.assembleSteamContentsFor _ _ _ _ _) as [[[] | msg] tr']; cbn;
        [| discriminate].
      destruct (exec_rejects env && _); cbn; [discriminate | by intros [= <- _]].
    + destruct (exec_rejects env && _); cbn; [discriminate | by intros [= <- _]].
Qed.

Lemma FileSteam_zip_present cfg env br tr :
  FileSteam.isMac br && negb (FileSteam.endsInDotApp br) = false ->
  mkdirP_error env tr (GODOT_ARCHIVE_PATH cfg) = None ->
  existsSync env (tr ++ [MkdirP (GODOT_ARCHIVE_PATH cfg)]) (zipPath_of cfg br) = true ->
  FileSteam.zipBuildResult cfg env br tr
  = (Return (with_archivePath br (zipPath_of cfg br)),
     tr ++ [MkdirP (GODOT_ARCHIVE_PATH cfg)]).
Proof.
  intros Hmac Hdir Hex. unfold FileSteam.zipBuildResult. run. unfold mkdirP.
  rewrite Hdir, Hmac. cbn. by rewrite Hex.
Qed.

(** The Steam assembly always runs its first command, whatever the
    commands return. *)
Lemma assembleSteamContentsFor_starts cfg env p buildDir tr :
  exists prog args rest later,
    steam_assembly cfg p buildDir = (prog, args) :: rest
    /\ snd (FileSteam.assembleSteamContentsFor cfg env p buildDir tr)
       = tr ++ Exec prog args :: later.
Proof.
  unfold FileSteam.assembleSteamContentsFor, steam_assembly. run. unfold exec.
  destruct (String.eqb (platform p) (DESKTOP_PLATFORMS_macOS cfg)).
  all: do 3 eexists.
  all: repeat (destruct (exec_rejects env && _); cbn [fst snd];
               [eexists; split; [reflexivity |]; rewrite <- ?app_assoc; reflexivity |]).
  all: eexists; split; [reflexivity |]; rewrite <- ?app_assoc; reflexivity.
Qed.

(** For a macOS flat archive the later stage starts the Steam assembly
    whatever is on disk. *)
Lemma FileSteam_zip_mac cfg env br tr :
  FileSteam.isMac br && negb (FileSteam.endsInDotApp br) = true ->
  mkdirP_error env tr (GODOT_ARCHIVE_PATH cfg) = None ->
  let macPath := path.join [directory br; path.basename (export_path (preset br))] in
  exists prog args rest later,
    steam_assembly cfg (preset br) macPath = (prog, args) :: rest
    /\ snd (FileSteam.zipBuildResult cfg env br tr)
       = tr ++ MkdirP (GODOT_ARCHIVE_PATH cfg) :: Exec prog args :: later.
Proof.
  intros Hmac Hdir macPath.
  destruct (assembleSteamContentsFor_starts cfg env (preset br) macPath
              (tr ++ [MkdirP (GODOT_ARCHIVE_PATH cfg)]))
    as (prog & args & rest & later & Hfirst & Htrace).
  unfold FileSteam.zipBuildResult. run. unfold mkdirP, start_cp, await. run.
  rewrite Hdir, Hmac. cbn. fold macPath.
  destruct (FileSteam.assembleSteamContentsFor cfg env (preset br) macPath _)
    as [[[] | msg] tr'] eqn:Hrun; cbn in Htrace; subst tr'.
  - exists prog, args, rest.
    destruct (cp_error env _ macPath _ _ _); cbn; eexists;
      (split; [exact Hfirst |]); rewrite <- !app_assoc; cbn; reflexivity.
  - exists prog, args, rest, later. split; [exact Hfirst |].
    cbn. by rewrite <- app_assoc.
Qed.

(** C3, as the code has it.  For an artifact outside the macOS
    flat-archive case, at both stages of the packaging code, once a first
    run of the packager has returned and the archive
    [archives/<sanitizedName>.zip] is on disk, running the packager again,
    on the artifact as it was or as the first run left it, only makes sure
    the archive folder exists: no archiver, no copy, and the artifact
    comes back with the same [archivePath].  For a macOS flat-archive
    artifact the archive on disk is not looked at, and the second run is
    not a no-op: the plain stage starts the copy of the exported archive
    onto the archive path again, and the later stage starts the Steam
    assembly again, ahead of anything else. *)
Theorem C3_packaging_again_skips_the_archiver cfg env br tr2 :
  mkdirP_error env tr2 (GODOT_ARCHIVE_PATH cfg) = None ->
  existsSync env (tr2 ++ [MkdirP (GODOT_ARCHIVE_PATH cfg)]) (zipPath_of cfg br) = true ->
  let macPath := path.join [directory br; path.basename (export_path (preset br))] in
  (File.isMac cfg br && negb (File.endsInDotApp br) = false ->
   forall tr1 br1 tr1',
     File.zipBuildResult cfg env br tr1 = (Return br1, tr1') ->
     archivePath br1 = Some (zipPath_of cfg br)
     /\ File.zipBuildResult cfg env br tr2
        = (Return br1, tr2 ++ [MkdirP (GODOT_ARCHIVE_PATH cfg)])
     /\ File.zipBuildResult cfg env br1 tr2
        = (Return br1, tr2 ++ [MkdirP (GODOT_ARCHIVE_PATH cfg)]))
  /\ (FileSteam.isMac br && negb (FileSteam.endsInDotApp br) = false ->
      forall tr1 br1 tr1',
        FileSteam.zipBuildResult cfg env br tr1 = (Return br1, tr1') ->
        archivePath br1 = Some (zipPath_of cfg br)
        /\ FileSteam.zipBuildResult cfg env br tr2
           = (Return br1, tr2 ++ [MkdirP (GODOT_ARCHIVE_PATH cfg)])
        /\ FileSteam.zipBuildResult cfg env br1 tr2
           = (Return br1, tr2 ++ [MkdirP (GODOT_ARCHIVE_PATH cfg)]))
  /\ (File.isMac cfg br && negb (File.endsInDotApp br) = true ->
      File.zipBuildResult cfg env br tr2
      = (match cp_error env (tr2 ++ [MkdirP (GODOT_ARCHIVE_PATH cfg)])
                 macPath (zipPath_of cfg br) false true with
         | Some msg => Throw msg
         | None => Return (with_archivePath br (zipPath_of cfg br))
         end,
         tr2 ++ [MkdirP (GODOT_ARCHIVE_PATH cfg);
                 Cp macPath (zipPath_of cfg br) false true]))
  /\ (FileSteam.isMac br && negb (FileSteam.endsInDotApp br) = true ->
      exists prog args rest later,
        steam_assembly cfg (preset br) macPath = (prog, args) :: rest
        /\ snd (FileSteam.zipBuildResult cfg env br tr2)
           = tr2 ++ MkdirP (GODOT_ARCHIVE_PATH cfg) :: Exec prog args :: later).
Proof.
  intros Hdir Hex macPath. split; [| split; [| split]].
  - intros Hmac tr1 br1 tr1' Hfirst.
    apply File_zip_returns in Hfirst as ->. split; [done |].
    split; [by apply File_zip_present |].
    exact (File_zip_present cfg env (with_archivePath br (zipPath_of cfg br)) tr2
             Hmac Hdir Hex).
  - intros Hmac tr1 br1 tr1' Hfirst.
    apply FileSteam_zip_returns in Hfirst as ->. split; [done |].
    split; [by apply FileSteam_zip_present |].
    exact (FileSteam_zip_present cfg env (with_archivePath br (zipPath_of cfg br)) tr2
             Hmac Hdir Hex).
  - intros Hmac. by apply File_zip_mac.
  - intros Hmac. by apply FileSteam_zip_mac.
Qed.

Lemma C3_packaging_again_skips_the_archiver_witness :
  let cfg := Sample.inputs true false false false in
  let br := Sample.artifact Sample.linux None in
  let zip := "/home/runner/.local/share/godot/archives/Linux.zip" in
  let first := File.zipBuildResult cfg Sample.archiving_env br [] in
  let first' := FileSteam.zipBuildResult cfg Sample.archiving_env br [] in
  (invokes_archiver (snd first) = true
   /\ File.zipBuildResult cfg Sample.archiving_env (with_archivePath br zip) (snd first)
      = (Return (with_archivePath br zip), snd first ++ [MkdirP (GODOT_ARCHIVE_PATH cfg)]))
  /\ (invokes_archiver (snd first') = true
      /\ FileSteam.zipBuildResult cfg Sample.archiving_env (with_archivePath br zip) (snd first')
         = (Return (with_archivePath br zip),
            snd first' ++ [MkdirP (GODOT_ARCHIVE_PATH cfg)])).
Proof.
  intros cfg br zip first first'. split; (split; [reflexivity |]).
  - assert (existsSync Sample.archiving_env (snd first ++ [MkdirP (GODOT_ARCHIVE_PATH cfg)])
              (zipPath_of cfg br) = true) as Hex by reflexivity.
    destruct (C3_packaging_again_skips_the_archiver cfg Sample.archiving_env br (snd first)
                eq_refl Hex) as [Hplain _].
    destruct (Hplain eq_refl [] (with_archivePath br zip) (snd first) eq_refl)
      as (_ & _ & Hagain).
    exact Hagain.
  - assert (existsSync Sample.archiving_env (snd first' ++ [MkdirP (GODOT_ARCHIVE_PATH cfg)])
              (zipPath_of cfg br) = true) as Hex by reflexivity.
    destruct (C3_packaging_again_skips_the_archiver cfg Sample.archiving_env br (snd first')
                eq_refl Hex) as (_ & Hsteam & _).
    destruct (Hsteam eq_refl [] (with_archivePath br zip) (snd first') eq_refl)
      as (_ & _ & Hagain).
    exact Hagain.
Defined.

(** C3 as the document states it fails for the macOS flat-archive case:
    with the archive already on disk, the plain stage copies the exported
    archive over it again, and the later stage runs the extractor
    again. *)
Lemma C3_counterexample_mac_repackaged :
  let cfg := Sample.inputs true false false false in
  let env := Sample.env None None in
  let zip := "/home/runner/.local/share/godot/archives/Mac.zip" in
  let br := Sample.artifact Sample.mac (Some zip) in
  zipPath_of cfg br = zip
  /\ existsSync env [MkdirP (GODOT_ARCHIVE_PATH cfg)] zip = true
  /\ copies (trace_of (File.zipBuildResult cfg env br) [])
     = [("/home/runner/.local/share/godot/builds/Mac/game.zip", zip)]
  /\ hd_error (commands (trace_of (FileSteam.zipBuildResult cfg env br) []))
     = Some ("unzip", ["-q"; "/home/runner/.local/share/godot/builds/Mac/game.zip";
                       "-d"; "/home/runner/.local/share/godot/builds/Mac/"]).
Proof. vm_compute. repeat split. Qed.

(** What the later stage does for a macOS flat-archive artifact, whatever
    the commands return, as long as [exec] hands the status back and the
    archive folder can be created. *)
Lemma FileSteam_mac_repack_trace cfg env br tr :
  exec_rejects env = false ->
  mkdirP_error env tr (GODOT_ARCHIVE_PATH cfg) = None ->
  FileSteam.isMac br && negb (FileSteam.endsInDotApp br) = true ->
  platform (preset br) = DESKTOP_PLATFORMS_macOS cfg ->
  let macPath := path.join [directory br; path.basename (export_path (preset br))] in
  let bundle := Js.replace ".zip" ".app" macPath in
  let macOSPath := path.join [bundle; "Contents"; "MacOS"] in
  snd (FileSteam.zipBuildResult cfg env br tr)
  = tr ++ [MkdirP (GODOT_ARCHIVE_PATH cfg);
           Exec "unzip" ["-q"; macPath; "-d";
                         Js.replace (path.basename (export_path (preset br))) "" macPath];
           Exec "rm" [macPath];
           Exec "ls" [bundle];
           Exec "cp" [STEAM_APPID_PATH cfg; macOSPath];
           Exec "mv" [STEAM_SDK_TARGET_PATH cfg (platform (preset br)); macOSPath];
           Exec "7z" ["a"; bundle; macPath];
           Cp macPath (zipPath_of cfg br) false true].
Proof.
  intros Hrej Hdir Hmac Hplat macPath bundle macOSPath.
  unfold FileSteam.zipBuildResult, FileSteam.assembleSteamContentsFor. run.
  unfold mkdirP, start_cp, await. run.
  rewrite Hdir, Hmac, Hplat, String.eqb_refl. unfold exec. rewrite Hrej. cbn.
  fold macPath. fold bundle. fold macOSPath.
  destruct (cp_error env _ macPath _ _ _); cbn; by rewrite <- !app_assoc.
Qed.

(** C4: for a macOS artifact exported as [game.zip], with every command
    succeeding, the packager extracts the archive next to it, removes the
    archive, puts the identity file and the SDK library under
    [game.app/Contents/MacOS], and then calls the archiver with the
    operands the wrong way round: the archive to write is the bundle
    directory [game.app] and the file to add is the removed [game.zip].
    The original archive name is never written again, and it is the source
    of the final copy to the archive path. *)
Theorem C4_mac_repack_operands_swapped :
  let cfg := Sample.inputs true false false false in
  let builds := "/home/runner/.local/share/godot/builds/Mac" in
  FileSteam.zipBuildResult cfg (Sample.env None None) (Sample.artifact Sample.mac None) []
  = (Return (with_archivePath (Sample.artifact Sample.mac None)
               "/home/runner/.local/share/godot/archives/Mac.zip"),
     [MkdirP "/home/runner/.local/share/godot/archives";
      Exec "unzip" ["-q"; builds +:+ "/game.zip"; "-d"; builds +:+ "/"];
      Exec "rm" [builds +:+ "/game.zip"];
      Exec "ls" [builds +:+ "/game.app"];
      Exec "cp" ["/work/game/steam_appid.txt"; builds +:+ "/game.app/Contents/MacOS"];
      Exec "mv" ["/work/game/sdk/Mac OSX"; builds +:+ "/game.app/Contents/MacOS"];
      Exec "7z" ["a"; builds +:+ "/game.app"; builds +:+ "/game.zip"];
      Cp (builds +:+ "/game.zip") "/home/runner/.local/share/godot/archives/Mac.zip"
         false true]).
Proof. vm_compute. reflexivity. Qed.

(** ** Relocation (section 4.5) *)









(** ** Strings *)

Lemma append_cons (c : ascii) (s t : string) : String c s +:+ t = String c (s +:+ t).
Proof. reflexivity. Qed.

Lemma append_nil_r (s : string) : s +:+ "" = s.
Proof. induction s as [| c s IH]; [done | by rewrite append_cons, IH]. Qed.

Lemma append_assoc (a b c : string) : (a +:+ b) +:+ c = a +:+ (b +:+ c).
Proof. induction a as [| x a IH]; [done | by rewrite !append_cons, IH]. Qed.

Lemma length_append (a b : string) :
  String.length (a +:+ b) = String.length a + String.length b.
Proof. induction a as [| x a IH]; [done | rewrite append_cons; cbn; by rewrite IH]. Qed.

Lemma append_inv_head (a b c : string) : a +:+ b = a +:+ c -> b = c.
Proof.
  induction a as [| x a IH]; [done |]. rewrite !append_cons. intros [= H]. by apply IH.
Qed.

Lemma rev_acc_append (s acc : string) : Js.rev_acc s acc = Js.rev s +:+ acc.
Proof.
  unfold Js.rev. revert acc. induction s as [| c s IH]; intros acc; cbn; [done |].
  rewrite (IH (String c "")), IH, append_assoc. reflexivity.
Qed.

Lemma rev_cons (c : ascii) (s : string) : Js.rev (String c s) = Js.rev s +:+ String c "".
Proof. unfold Js.rev. cbn. apply rev_acc_append. Qed.

Lemma rev_append (s t : string) : Js.rev (s +:+ t) = Js.rev t +:+ Js.rev s.
Proof.
  induction s as [| c s IH].
  - change ("" +:+ t) with t. change (Js.rev "") with "". by rewrite append_nil_r.
  - rewrite append_cons, !rev_cons, IH, append_assoc. reflexivity.
Qed.

Lemma rev_involutive (s : string) : Js.rev (Js.rev s) = s.
Proof.
  induction s as [| c s IH]; [done |].
  rewrite rev_cons, rev_append, IH. reflexivity.
Qed.

Lemma all_chars_append P (a b : string) :
  all_chars P (a +:+ b) = all_chars P a && all_chars P b.
Proof.
  induction a as [| x a IH]; [done |]. rewrite append_cons. cbn.
  by rewrite IH, andb_assoc.
Qed.

Lemma all_chars_rev P (s : string) : all_chars P (Js.rev s) = all_chars P s.
Proof.
  induction s as [| c s IH]; [done |].
  rewrite rev_cons, all_chars_append, IH. cbn. rewrite andb_true_r. apply andb_comm.
Qed.

(** ** Sanitized names are plain or empty *)

Lemma all_chars_remove_bad P bad (s : string) :
  (forall c, bad c = false -> P c = true) ->
  all_chars P (Sanitize.remove bad s) = true.
Proof.
  intros Hbad. induction s as [| c s IH]; cbn; [done |].
  destruct (bad c) eqn:Hc; [done |]. cbn. by rewrite (Hbad _ Hc), IH.
Qed.

Lemma all_chars_remove P bad (s : string) :
  all_chars P s = true -> all_chars P (Sanitize.remove bad s) = true.
Proof.
  induction s as [| c s IH]; cbn; [done |].
  intros [Hc Hs]%andb_true_iff. destruct (bad c); cbn; [by apply IH |].
  by rewrite Hc, IH.
Qed.

Lemma all_chars_drop_while P q (s : string) :
  all_chars P s = true -> all_chars P (Sanitize.drop_while q s) = true.
Proof.
  induction s as [| c s IH]; cbn; [done |].
  intros H. destruct (q c); [| done]. apply andb_true_iff in H as [_ Hs]. by apply IH.
Qed.

Lemma all_chars_truncate P n (s : string) :
  all_chars P s = true -> all_chars P (Sanitize.truncate n s) = true.
Proof.
  revert n. induction s as [| c s IH]; intros n; cbn; [done |].
  intros [Hc Hs]%andb_true_iff. destruct (Nat.leb _ n); [| done].
  cbn. by rewrite Hc, IH.
Qed.

Lemma sanitize_no_slash (n : string) : no_slash (sanitize n) = true.
Proof.
  unfold sanitize, Sanitize.sanitize, no_slash.
  apply all_chars_truncate. unfold Sanitize.strip_trailing.
  rewrite all_chars_rev. apply all_chars_drop_while. rewrite all_chars_rev.
  assert (all_chars (fun c => negb (Ascii.eqb c path.slash))
            (Sanitize.remove Sanitize.control (Sanitize.remove Sanitize.illegal n)) = true)
    as H.
  { apply all_chars_remove, all_chars_remove_bad. intros c Hc.
    destruct (Ascii.eqb c path.slash) eqn:Heq; [| done].
    apply Ascii.eqb_eq in Heq. subst c. discriminate Hc. }
  destruct (Sanitize.reserved _); [by destruct (Sanitize.windowsReserved "") |].
  by destruct (Sanitize.windowsReserved _).
Qed.

Lemma drop_while_head q (s : string) c r :
  Sanitize.drop_while q s = String c r -> q c = false.
Proof.
  induction s as [| x s IH]; cbn; [discriminate |].
  destruct (q x) eqn:Hx; [exact IH |]. by intros [= <- _].
Qed.

Lemma truncate_whole_or_short n (s : string) :
  Sanitize.truncate n s = s \/ n < 2 * String.length (Sanitize.truncate n s) + 2.
Proof.
  revert n. induction s as [| c s IH]; intros n; cbn [Sanitize.truncate]; [by left |].
  assert (Sanitize.utf8_len c <= 2) as Hlen.
  { unfold Sanitize.utf8_len. destruct (Nat.leb _ 127); lia. }
  destruct (Nat.leb (Sanitize.utf8_len c) n) eqn:Hfit.
  - destruct (IH (n - Sanitize.utf8_len c)) as [-> | Hshort]; [by left |].
    right. cbn [String.length]. lia.
  - right. apply Nat.leb_gt in Hfit. cbn. lia.
Qed.

Lemma strip_trailing_not_dots (s : string) :
  Sanitize.strip_trailing s <> "." /\ Sanitize.strip_trailing s <> "..".
Proof.
  assert (forall c r, Js.rev (Sanitize.strip_trailing s) = String c r ->
                      Sanitize.dot_or_space c = false) as Hhead.
  { intros c r. unfold Sanitize.strip_trailing. rewrite rev_involutive.
    apply drop_while_head. }
  split; intros Heq; rewrite Heq in Hhead.
  - by specialize (Hhead _ _ eq_refl).
  - by specialize (Hhead _ _ eq_refl).
Qed.

Lemma sanitize_not_dots (n : string) : sanitize n <> "." /\ sanitize n <> "..".
Proof.
  unfold sanitize, Sanitize.sanitize.
  match goal with
  | |- context [Sanitize.strip_trailing ?s4] =>
      destruct (strip_trailing_not_dots s4) as [H1 H2];
      set (s5 := Sanitize.strip_trailing s4) in *
  end.
  destruct (truncate_whole_or_short 255 s5) as [-> | Hshort]; [done |].
  split; intros Heq; rewrite Heq in Hshort; cbn in Hshort; lia.
Qed.

(** A sanitized name is empty or a plain segment. *)
Lemma sanitize_plain (n : string) : sanitize n = "" \/ plain (sanitize n).
Proof.
  destruct (String.eqb (sanitize n) "") eqn:He.
  - left. by apply String.eqb_eq.
  - right. apply String.eqb_neq in He. destruct (sanitize_not_dots n).
    split; [apply sanitize_no_slash | done].
Qed.

(** ** Joining a directory and a plain name *)

Lemma append_inv_tail (a b c : string) : a +:+ c = b +:+ c -> a = b.
Proof.
  intros H. apply (f_equal Js.rev) in H. rewrite !rev_append in H.
  apply append_inv_head in H. apply (f_equal Js.rev) in H.
  by rewrite !rev_involutive in H.
Qed.

Lemma split_nonempty (s : string) : path.split s <> [].
Proof.
  destruct s as [| c s]; cbn; [done |].
  destruct (Ascii.eqb c path.slash); [done |]. by destruct (path.split s).
Qed.

Lemma split_no_slash (s : string) : no_slash s = true -> path.split s = [s].
Proof.
  induction s as [| c s IH]; cbn; [done |].
  intros [Hc Hs]%andb_true_iff. apply negb_true_iff in Hc. rewrite Hc.
  by rewrite (IH Hs).
Qed.

Lemma split_append (a b : string) :
  path.split (a +:+ String path.slash b) = path.split a ++ path.split b.
Proof.
  induction a as [| c a IH]; [reflexivity |].
  rewrite append_cons. cbn [path.split]. rewrite IH.
  destruct (Ascii.eqb c path.slash); [reflexivity |].
  pose proof (split_nonempty a). by destruct (path.split a).
Qed.

Lemma norm_step_plain allow stk (s : string) :
  plain s -> path.norm_step allow stk s = s :: stk.
Proof.
  intros (_ & H0 & H1 & H2). unfold path.norm_step.
  apply String.eqb_neq in H0, H1, H2. by rewrite H0, H1, H2.
Qed.

Lemma glue_snoc (l : list string) (s : string) :
  path.glue (l ++ [s]) = match l with
                         | [] => s
                         | _ => path.glue l +:+ "/" +:+ s
                         end.
Proof.
  induction l as [| x l IH]; [reflexivity |].
  destruct l as [| y l]; [reflexivity |].
  change (path.glue ((x :: y :: l) ++ [s]))
    with (x +:+ "/" +:+ path.glue ((y :: l) ++ [s])).
  rewrite IH. change (path.glue (x :: y :: l)) with (x +:+ "/" +:+ path.glue (y :: l)).
  by rewrite !append_assoc.
Qed.

Lemma starts_with_slash_append (a b : string) :
  a <> "" -> path.starts_with_slash (a +:+ b) = path.starts_with_slash a.
Proof. by destruct a. Qed.

Lemma no_slash_not_leading (s : string) :
  no_slash s = true -> path.starts_with_slash s = false.
Proof.
  destruct s as [| c s]; cbn; [done |].
  intros [Hc _]%andb_true_iff. by apply negb_true_iff in Hc.
Qed.

Lemma ends_with_slash_plain (a s : string) :
  plain s -> path.ends_with_slash (a +:+ s) = false.
Proof.
  intros (Hs & H0 & _). unfold path.ends_with_slash. rewrite rev_append.
  rewrite starts_with_slash_append.
  - apply no_slash_not_leading. unfold no_slash. by rewrite all_chars_rev.
  - intros Hrev. apply (f_equal Js.rev) in Hrev. by rewrite rev_involutive in Hrev.
Qed.

Lemma normalizeString_snoc (p s : string) allow :
  plain s ->
  path.normalizeString (p +:+ String path.slash s) allow
  = path.glue (List.rev (fold_left (path.norm_step allow) (path.split p) []) ++ [s]).
Proof.
  intros Hs. unfold path.normalizeString.
  rewrite split_append, (split_no_slash s) by apply Hs.
  rewrite fold_left_app. cbn [fold_left]. by rewrite norm_step_plain.
Qed.

Lemma truthy_nonempty (s : string) : Js.truthy s = true <-> s <> "".
Proof.
  unfold Js.truthy. rewrite negb_true_iff. apply String.eqb_neq.
Qed.

Lemma join_plain base (s : string) :
  plain s -> path.join [base; s] = dir_prefix base +:+ s.
Proof.
  intros Hs. pose proof Hs as (Hns & H0 & _).
  apply truthy_nonempty in H0 as Hts.
  unfold path.join, dir_prefix. cbn [List.filter]. rewrite Hts.
  destruct (Js.truthy base) eqn:Hb.
  - apply truthy_nonempty in Hb.
    change (path.glue [base; s]) with (base +:+ String path.slash s).
    unfold path.normalize.
    assert (base +:+ String path.slash s <> "") as Hne by by apply append_nonempty_l.
    apply String.eqb_neq in Hne. rewrite Hne.
    rewrite (starts_with_slash_append base) by done.
    change (base +:+ String path.slash s) with (base +:+ ("/" +:+ s)).
    rewrite <- append_assoc, ends_with_slash_plain by done.
    rewrite append_assoc. change ("/" +:+ s) with (String path.slash s).
    rewrite normalizeString_snoc, glue_snoc by done.
    set (l := List.rev _).
    assert (match l with [] => s | _ :: _ => path.glue l +:+ "/" +:+ s end
            = match l with [] => "" | _ :: _ => path.glue l +:+ "/" end +:+ s) as ->.
    { destruct l; [done | by rewrite !append_assoc]. }
    assert (match l with [] => "" | _ :: _ => path.glue l +:+ "/" end +:+ s <> "") as Hq
      by by apply append_nonempty_r.
    apply String.eqb_neq in Hq. rewrite Hq.
    destruct (path.starts_with_slash base), l; try reflexivity;
      by rewrite <- append_assoc.
  - change (path.glue [s]) with s. unfold path.normalize.
    apply String.eqb_neq in H0. rewrite H0.
    rewrite (no_slash_not_leading s Hns).
    replace (path.ends_with_slash s) with false
      by (symmetry; apply (ends_with_slash_plain "" s Hs)).
    unfold path.normalizeString. rewrite (split_no_slash s Hns). cbn [fold_left].
    rewrite norm_step_plain by done. cbn [List.rev app path.glue]. rewrite H0.
    reflexivity.
Qed.

Lemma join_plain_inj base (s1 s2 : string) :
  plain s1 -> plain s2 -> path.join [base; s1] = path.join [base; s2] -> s1 = s2.
Proof.
  intros H1 H2. rewrite !join_plain by done. apply append_inv_head.
Qed.

Lemma append_nil_l (s : string) : "" +:+ s = s.
Proof. reflexivity. Qed.

Lemma join_base_vs_plain base (s : string) :
  plain s -> path.join [base; ""] <> path.join [base; s].
Proof.
  intros Hs. rewrite (join_plain base s Hs). pose proof Hs as (Hns & H0 & H1 & _).
  unfold path.join, dir_prefix. cbn [List.filter Js.truthy String.eqb negb].
  destruct (Js.truthy base) eqn:Hb.
  - change (path.glue [base]) with base. unfold path.normalize.
    apply truthy_nonempty in Hb. apply String.eqb_neq in Hb. rewrite Hb.
    unfold path.normalizeString.
    set (l := List.rev _).
    destruct (String.eqb (path.glue l) "") eqn:Hq.
    + apply String.eqb_eq in Hq.
      destruct (path.starts_with_slash base), (path.ends_with_slash base), l as [| x l];
        try rewrite Hq; intros Heq; repeat (rewrite ?append_cons, ?append_nil_l in Heq).
      all: try (injection Heq as Heq; subst s; by cbn in * ).
      all: try (subst s; by cbn in * ).
      all: try discriminate Heq.
    + destruct l as [| x l]; [discriminate Hq |].
      set (q := path.glue (x :: l)) in *.
      destruct (path.starts_with_slash base), (path.ends_with_slash base);
        intros Heq; repeat (rewrite ?append_cons, ?append_nil_l in Heq); rewrite ?append_assoc in Heq;
        try injection Heq as Heq.
      all: first [ apply append_inv_head in Heq
                 | rewrite <- (append_nil_r q) in Heq at 1;
                   apply append_inv_head in Heq ];
        repeat (rewrite ?append_cons, ?append_nil_l in Heq).
      all: try discriminate Heq.
      all: injection Heq as Heq; by subst s.
  - intros Heq. repeat (rewrite ?append_cons, ?append_nil_l in Heq). by subst s.
Qed.

Lemma join_plain_or_empty_inj base (s1 s2 : string) :
  s1 = "" \/ plain s1 -> s2 = "" \/ plain s2 ->
  path.join [base; s1] = path.join [base; s2] -> s1 = s2.
Proof.
  intros [-> | H1] [-> | H2] Heq; [done | | |].
  - by apply join_base_vs_plain in Heq.
  - symmetry in Heq. by apply join_base_vs_plain in Heq.
  - by apply (join_plain_inj base).
Qed.

Lemma zip_name_plain (s : string) : no_slash s = true -> plain (s +:+ ".zip").
Proof.
  intros Hs. split; [| split; [| split]].
  - unfold no_slash in *. by rewrite all_chars_append, Hs.
  - by apply append_nonempty_r.
  - intros H. apply (f_equal String.length) in H. rewrite length_append in H.
    cbn in H. lia.
  - intros H. apply (f_equal String.length) in H. rewrite length_append in H.
    cbn in H. lia.
Qed.

(** ** Sanitized names and the paths derived from them (section 3) *)

(** C8, as the code has it: the scratch build directory and the archive
    path of a preset are derived from its sanitized name alone, and they
    tell two presets apart whenever the sanitized names differ; nothing
    makes the sanitized names of distinct preset names differ. *)
Theorem C8_distinct_sanitized_names_give_distinct_paths cfg p1 p2 br1 br2 :
  sanitize (name p1) <> sanitize (name p2) ->
  sanitizedName br1 = sanitize (name p1) ->
  sanitizedName br2 = sanitize (name p2) ->
  buildDir_of cfg p1 <> buildDir_of cfg p2
  /\ zipPath_of cfg br1 <> zipPath_of cfg br2.
Proof.
  intros Hne Hb1 Hb2. split; intros Heq; apply Hne.
  - apply (join_plain_or_empty_inj (GODOT_BUILD_PATH cfg)); [apply sanitize_plain .. | done].
  - unfold zipPath_of in Heq. rewrite Hb1, Hb2 in Heq.
    apply join_plain_inj in Heq; [| apply zip_name_plain, sanitize_no_slash ..].
    by apply append_inv_tail in Heq.
Qed.

Lemma C8_distinct_sanitized_names_give_distinct_paths_witness :
  let cfg := Sample.inputs true false false false in
  buildDir_of cfg Sample.linux <> buildDir_of cfg Sample.windows
  /\ zipPath_of cfg (Sample.artifact Sample.linux None)
     <> zipPath_of cfg (Sample.artifact Sample.windows None).
Proof.
  intros cfg.
  apply (C8_distinct_sanitized_names_give_distinct_paths cfg Sample.linux Sample.windows);
    [vm_compute; discriminate | reflexivity | reflexivity].
Defined.

(** C8 as the document states it fails: the preset names [Linux/X11] and
    [LinuxX11] are distinct and are sanitized to the same name, so the two
    presets share their scratch build directory and their archive path. *)
Lemma C8_counterexample_names_collide :
  let cfg := Sample.inputs true false false false in
  let p1 := {| name := "Linux/X11"; platform := "Linux/X11"; export_path := "a/game.x86_64" |} in
  let p2 := {| name := "LinuxX11"; platform := "Linux/X11"; export_path := "b/game.x86_64" |} in
  name p1 <> name p2
  /\ sanitize (name p1) = sanitize (name p2)
  /\ buildDir_of cfg p1 = buildDir_of cfg p2
  /\ zipPath_of cfg (Sample.artifact p1 None) = zipPath_of cfg (Sample.artifact p2 None).
Proof. vm_compute. repeat split. discriminate. Qed.

(** ** Editor settings (section 4.1) *)

Lemma mkdirs_preserves (dirs : list string) (fs : Io.filesystem) k e :
  fs !! k = Some e -> snd (Io.mkdirs dirs fs) !! k = Some e.
Proof.
  revert fs. induction dirs as [| d dirs IH]; intros fs Hk; [done |].
  cbn [Io.mkdirs]. destruct (fs !! d) as [[c |] |] eqn:Hd; [done | by apply IH |].
  apply IH. rewrite lookup_insert_ne; [done |]. intros ->. congruence.
Qed.

Lemma mkdirs_fixed (dirs : list string) (fs : Io.filesystem) :
  (forall d, In d dirs -> fs !! d = Some Io.EDir) ->
  Io.mkdirs dirs fs = (Return tt, fs).
Proof.
  induction dirs as [| d dirs IH]; intros Hdirs; [done |].
  cbn [Io.mkdirs]. rewrite (Hdirs d) by by left.
  apply IH. intros d' Hd'. apply Hdirs. by right.
Qed.

Lemma mkdirs_success (dirs : list string) (fs fs' : Io.filesystem) :
  Io.mkdirs dirs fs = (Return tt, fs') ->
  forall d, In d dirs -> fs' !! d = Some Io.EDir.
Proof.
  revert fs. induction dirs as [| d dirs IH]; intros fs Hrun d' Hd'; [done |].
  cbn [Io.mkdirs] in Hrun.
  destruct Hd' as [<- | Hd'].
  - destruct (fs !! d) as [[c |] |] eqn:Hd; [done | |].
    + pose proof (mkdirs_preserves dirs fs d _ Hd) as H. by rewrite Hrun in H.
    + pose proof (mkdirs_preserves dirs (<[d:=Io.EDir]> fs) d Io.EDir) as H.
      rewrite Hrun in H. apply H. apply lookup_insert_eq.
  - destruct (fs !! d) as [[c |] |]; [done | by eapply IH | by eapply IH].
Qed.

Lemma mkdirs_again (dirs : list string) (fs : Io.filesystem) :
  Io.mkdirs dirs (snd (Io.mkdirs dirs fs)) = Io.mkdirs dirs fs.
Proof.
  revert fs. induction dirs as [| d dirs IH]; intros fs; [done |].
  cbn [Io.mkdirs]. destruct (fs !! d) as [[c |] |] eqn:Hd.
  - cbn. by rewrite Hd.
  - rewrite (mkdirs_preserves dirs fs d _ Hd). apply IH.
  - rewrite (mkdirs_preserves dirs (<[d:=Io.EDir]> fs) d Io.EDir)
      by apply lookup_insert_eq.
    apply IH.
Qed.

(** Without [force], [io.cp] changes nothing that is on the disk. *)
Lemma cp_unforced_preserves cwd source dest (fs : Io.filesystem) k e :
  fs !! k = Some e -> snd (Io.cp cwd source dest false fs) !! k = Some e.
Proof.
  intros Hk. unfold Io.cp. cbn [negb].
  repeat case_match; cbn; try done.
  all: rewrite lookup_insert_ne; [done | intros Heq; rewrite <- Heq in Hk; congruence].
Qed.

Lemma cp_unforced_again cwd source dest (fs : Io.filesystem) :
  Io.cp cwd source dest false (snd (Io.cp cwd source dest false fs))
  = Io.cp cwd source dest false fs.
Proof.
  unfold Io.cp at 2 3. cbn [negb].
  destruct (fs !! path.resolve cwd dest) as [[c |] |] eqn:Hdest.
  - cbn. unfold Io.cp. by rewrite Hdest.
  - destruct (fs !! path.resolve cwd source) as [[content |] |] eqn:Hsrc.
    2,3: cbn; unfold Io.cp; by rewrite !Hdest, Hsrc.
    set (nd := path.resolve cwd (path.join [dest; path.basename source])) in *.
    destruct (String.eqb _ nd) eqn:Hsame.
    { cbn. unfold Io.cp. rewrite !Hdest. fold nd. by rewrite Hsrc, Hsame. }
    destruct (fs !! nd) as [[c' |] |] eqn:Hnd.
    + cbn. unfold Io.cp. cbn [negb]. rewrite !Hdest. fold nd.
      by rewrite Hsrc, Hsame, Hnd.
    + cbn. unfold Io.cp. cbn [negb]. rewrite !Hdest. fold nd.
      by rewrite Hsrc, Hsame, Hnd.
    + cbn. unfold Io.cp. cbn [negb].
      destruct (decide (path.resolve cwd dest = nd)) as [Heq | Hne].
      * rewrite Heq. by rewrite lookup_insert_eq.
      * rewrite !(lookup_insert_ne _ nd (path.resolve cwd dest)) by done.
        rewrite !Hdest. fold nd.
        apply String.eqb_neq in Hsame as Hsame'.
        rewrite lookup_insert_ne by done. rewrite Hsrc, Hsame.
        by rewrite lookup_insert_eq.
  - destruct (fs !! path.resolve cwd source) as [[content |] |] eqn:Hsrc.
    2,3: cbn; unfold Io.cp; by rewrite !Hdest, Hsrc.
    destruct (String.eqb _ _) eqn:Hsame.
    { cbn. unfold Io.cp. by rewrite !Hdest, Hsrc, Hsame. }
    rewrite Hdest. cbn. unfold Io.cp. cbn [negb].
    by rewrite lookup_insert_eq.
Qed.

(** Whatever is on the disk stays as it is when the editor settings are
    added. *)
Lemma addEditorSettings_preserves cfg (fs : Io.filesystem) k e :
  fs !! k = Some e -> snd (addEditorSettings cfg fs) !! k = Some e.
Proof.
  intros Hk. unfold addEditorSettings, Io.mkdirP. run.
  pose proof (mkdirs_preserves (Io.ancestors (cwd cfg) (GODOT_CONFIG_PATH cfg)) fs k e Hk)
    as Hmk.
  destruct (Io.mkdirs _ fs) as [[[] | msg] fs1]; [| exact Hmk].
  cbn in Hmk.
  pose proof (cp_unforced_preserves (cwd cfg)
                (path.join [dirname__ cfg; EDITOR_SETTINGS_FILENAME cfg])
                (editorSettingsPath cfg) fs1 k e Hmk) as Hcp.
  by destruct (Io.cp _ _ _ false fs1) as [[[] | msg] fs2].
Qed.

Lemma addEditorSettings_again cfg (fs : Io.filesystem) :
  addEditorSettings cfg (snd (addEditorSettings cfg fs)) = addEditorSettings cfg fs.
Proof.
  unfold addEditorSettings, Io.mkdirP. run.
  set (dirs := Io.ancestors (cwd cfg) (GODOT_CONFIG_PATH cfg)).
  set (src := path.join [dirname__ cfg; EDITOR_SETTINGS_FILENAME cfg]).
  pose proof (mkdirs_again dirs fs) as Hagain.
  destruct (Io.mkdirs dirs fs) as [[[] | msg] fs1] eqn:Hmk.
  - pose proof (mkdirs_success dirs fs fs1 Hmk) as Hdirs.
    pose proof (cp_unforced_again (cwd cfg) src (editorSettingsPath cfg) fs1) as Hcp.
    assert (Io.mkdirs dirs (snd (Io.cp (cwd cfg) src (editorSettingsPath cfg) false fs1))
            = (Return tt, snd (Io.cp (cwd cfg) src (editorSettingsPath cfg) false fs1)))
      as Hfix.
    { apply mkdirs_fixed. intros d Hd. apply cp_unforced_preserves. by apply Hdirs. }
    destruct (Io.cp (cwd cfg) src (editorSettingsPath cfg) false fs1)
      as [[[] | msg] fs2] eqn:Hcp1; cbn in *; by rewrite Hfix, Hcp.
  - cbn in *. by rewrite Hagain.
Qed.

(** C9: adding the editor settings leaves a settings file that is already
    at the target as it is, content included (and so every other thing on
    the disk); and adding them a second time changes nothing more and ends
    the same way. *)
Theorem C9_existing_editor_settings_are_kept cfg (fs : Io.filesystem) content :
  fs !! path.resolve (cwd cfg) (editorSettingsPath cfg) = Some (Io.EFile content) ->
  snd (addEditorSettings cfg fs) !! path.resolve (cwd cfg) (editorSettingsPath cfg)
  = Some (Io.EFile content)
  /\ (forall k e, fs !! k = Some e -> snd (addEditorSettings cfg fs) !! k = Some e)
  /\ addEditorSettings cfg (snd (addEditorSettings cfg fs)) = addEditorSettings cfg fs.
Proof.
  intros Hfile. split; [by apply addEditorSettings_preserves |].
  split; [intros k e; apply addEditorSettings_preserves | apply addEditorSettings_again].
Qed.

Lemma C9_existing_editor_settings_are_kept_witness :
  let cfg := Sample.inputs false false false false in
  snd (addEditorSettings cfg Sample.disk) !! "/home/runner/.config/godot/editor_settings-3.tres"
  = Some (Io.EFile "mine").
Proof.
  intros cfg.
  assert (Sample.disk !! path.resolve (cwd cfg) (editorSettingsPath cfg)
          = Some (Io.EFile "mine")) as Hfile by (vm_compute; reflexivity).
  destruct (C9_existing_editor_settings_are_kept cfg Sample.disk "mine" Hfile) as [Hkept _].
  exact Hkept.
Defined.

(** On a disk without a settings file the template is copied. *)
Example addEditorSettings_fresh :
  let cfg := Sample.inputs false false false false in
  let fresh : Io.filesystem :=
    <["/action/dist/editor_settings-3.tres" := Io.EFile "template"]> ∅ in
  fst (addEditorSettings cfg fresh) = Return tt
  /\ snd (addEditorSettings cfg fresh) !! "/home/runner/.config/godot/editor_settings-3.tres"
     = Some (Io.EFile "template")
  /\ snd (addEditorSettings cfg fresh) !! "/home/runner/.config/godot" = Some Io.EDir.
Proof. vm_compute. repeat split. Qed.

(** ** The properties at the sample run *)

Lemma C1_export_invocation_follows_the_table_witness :
  let cfg := Sample.inputs true true true true in
  godot_calls (trace_of (doExport_loop cfg (Sample.env None None) [Sample.linux] []) [])
  = [["/work/game/project.godot"; "--headless"; "--export-debug"; "Linux";
      "/home/runner/.local/share/godot/builds/Linux/game.x86_64.pck"; "--verbose"]].
Proof.
  intros cfg.
  exact (C1_export_invocation_follows_the_table cfg (Sample.env None None) Sample.linux
           "/home/runner/.local/share/godot/builds/Linux/game.x86_64" [] eq_refl).
Defined.

Lemma C6_nonzero_exit_aborts_export_witness :
  let cfg := Sample.inputs false false false false in
  exists msg,
    doExport cfg (Sample.failing_env Sample.four_presets) []
    = (Throw msg,
       [MkdirP "/home/runner/.local/share/godot/builds/Linux";
        Exec "godot" ["/work/game/project.godot"; "--export"; "Linux";
                      "/home/runner/.local/share/godot/builds/Linux/game.x86_64"];
        Warning ("No file path set for preset " +:+ dquote +:+ "Web" +:+ dquote
                 +:+ ". Skipping export!")]
       ++ [MkdirP "/home/runner/.local/share/godot/builds/Broken";
           Exec "godot" ["/work/game/project.godot"; "--export"; "Broken";
                         "/home/runner/.local/share/godot/builds/Broken/game.x86_64"]]).
Proof.
  intros cfg.
  refine (C6_nonzero_exit_aborts_export cfg (Sample.failing_env Sample.four_presets) [] []
            [Sample.linux; Sample.unset] Sample.broken [Sample.windows]
            _ _ "/home/runner/.local/share/godot/builds/Broken/game.x86_64"
            eq_refl eq_refl eq_refl _).
  vm_compute. discriminate.
Defined.

Lemma C7_empty_export_path_is_skipped_witness :
  let cfg := Sample.inputs false false false false in
  let env := Sample.env Sample.four_presets None in
  doExport_loop cfg env [Sample.unset] [] [] = (Return [], [skip_warning Sample.unset])
  /\ (exists new ext,
         doExport_loop cfg env
           [Sample.linux; Sample.unset; Sample.broken; Sample.windows] [] []
         = (Return new, ext)
         /\ In (skip_warning Sample.unset) ext
         /\ List.map preset new = [Sample.linux; Sample.broken; Sample.windows]).
Proof.
  intros cfg env.
  destruct (C7_empty_export_path_is_skipped cfg env Sample.unset eq_refl)
    as (Halone & _ & _ & Hlogged).
  split; [exact (Halone [] []) |].
  destruct (Hlogged [Sample.linux; Sample.unset; Sample.broken; Sample.windows] [] []
              _ _ (or_intror (or_introl eq_refl)) eq_refl)
    as (new & ext & Hnew & Hext & Hin & _ & Hpresets).
  cbn [app] in Hnew, Hext. subst new ext. do 2 eexists.
  split; [vm_compute; reflexivity |]. split; [exact Hin | exact Hpresets].
Defined.

Lemma C10_no_presets_warns_and_returns_empty_witness :
  let cfg := Sample.inputs true false false false in
  let env := Sample.env (Some {| preset_table := None |}) None in
  let env' := Sample.env (Some {| preset_table := Some [] |}) None in
  (getExportPresets cfg env []
   = (Return [], [Warning "No presets found in export_presets.cfg at /work/game"])
   /\ doExport cfg env []
      = (Return [], [Warning "No presets found in export_presets.cfg at /work/game"]))
  /\ (getExportPresets cfg env' [] = (Return [], [])
      /\ doExport cfg env' [] = (Return [], [])).
Proof.
  intros cfg env env'.
  destruct (C10_no_presets_warns_and_returns_empty cfg env [] {| preset_table := None |}
              eq_refl) as [Hwarns _].
  destruct (C10_no_presets_warns_and_returns_empty cfg env' [] {| preset_table := Some [] |}
              eq_refl) as [_ Hsilent].
  split; [exact (Hwarns eq_refl) | exact (Hsilent eq_refl)].
Defined.

(** The sample project end to end: the preset without an export path is
    skipped, and the other three are exported. *)
Example doExport_sample_success :
  let cfg := Sample.inputs true false false false in
  exists artifacts,
    result_of (doExport cfg (Sample.env Sample.four_presets None)) [] = Return artifacts
    /\ List.map (fun r => name (preset r)) artifacts = ["Linux"; "Broken"; "Windows"].
Proof. eexists. split; vm_compute; reflexivity. Qed.

(** The samples of the extracted toolchain hold their entries in the
    order in which [readdirSync] lists them. *)
Example samples_listed_in_order :
  listed_in_order Sample.toolchain = true
  /\ listed_in_order Sample.toolchain_with_text_file = true
  /\ listed_in_order flat_toolchain = true.
Proof. vm_compute. repeat split. Qed.

(** ** The executable search beyond the claim *)

Lemma findGodotExecutablePath_scan basePath entries dirs :
  (fix scan (paths : list (string * fsnode)) (dirs : list (outcome (option string))) :=
     match paths with
     | (subPath, node) :: rest =>
         let fullPath := path.join [basePath; subPath] in
         if isFile node
            && (String.eqb (path.extname fullPath) ".64"
                || String.eqb (path.extname fullPath) ".x86_64")
         then Return (Some fullPath)
         else scan rest (dirs ++ [findGodotExecutablePath fullPath node])
     | [] =>
         match dirs with
         | found :: _ => found
         | [] => Return None
         end
     end) entries dirs
  = scan_with findGodotExecutablePath basePath entries dirs.
Proof.
  revert dirs. induction entries as [| [s n] entries IH]; intros dirs; [reflexivity |].
  cbn [scan_with]. cbv zeta. destruct (isFile n && _); [reflexivity | apply IH].
Qed.

Lemma findGodotExecutablePath_unfold basePath entries :
  findGodotExecutablePath basePath (Directory entries)
  = scan_with findGodotExecutablePath basePath entries [].
Proof. apply findGodotExecutablePath_scan. Qed.

Lemma scan_with_binary search basePath pre entry post dirs :
  forallb (fun e => negb (is_binary basePath e)) pre = true ->
  is_binary basePath entry = true ->
  scan_with search basePath (pre ++ entry :: post) dirs
  = Return (Some (path.join [basePath; fst entry])).
Proof.
  revert dirs. induction pre as [| [s n] pre IH]; intros dirs Hpre Hentry.
  - destruct entry as [s n]. cbn in *. unfold is_binary, Design.known_suffix in Hentry.
    cbn in Hentry. by rewrite Hentry.
  - cbn in Hpre. apply andb_true_iff in Hpre as [Hhead Hpre].
    apply negb_true_iff in Hhead. unfold is_binary, Design.known_suffix in Hhead.
    cbn in Hhead. cbn [app scan_with]. rewrite Hhead. by apply IH.
Qed.

Lemma scan_with_no_binary search basePath paths dirs :
  forallb (fun e => negb (is_binary basePath e)) paths = true ->
  scan_with search basePath paths dirs
  = match dirs ++ List.map (fun e => search (path.join [basePath; fst e]) (snd e)) paths with
    | found :: _ => found
    | [] => Return None
    end.
Proof.
  revert dirs. induction paths as [| [s n] paths IH]; intros dirs Hno.
  - cbn. by rewrite app_nil_r.
  - cbn in Hno. apply andb_true_iff in Hno as [Hhead Hno].
    apply negb_true_iff in Hhead. unfold is_binary, Design.known_suffix in Hhead.
    cbn in Hhead. cbn [scan_with]. rewrite Hhead. rewrite IH by done.
    cbn [List.map fst snd]. by rewrite <- app_assoc.
Qed.

(** X1: a regular file with a known suffix that lies directly in the
    searched directory is returned, namely the first such in listing
    order, whatever comes before it in the listing: sub-directories listed
    earlier are not looked into, even when they hold a binary. *)
Theorem findGodotExecutablePath_top_level_first basePath pre subPath post :
  forallb (fun e => negb (is_binary basePath e)) pre = true ->
  Design.known_suffix (path.join [basePath; subPath]) = true ->
  findGodotExecutablePath basePath (Directory (pre ++ (subPath, RegFile) :: post))
  = Return (Some (path.join [basePath; subPath])).
Proof.
  intros Hpre Hext. rewrite findGodotExecutablePath_unfold.
  by apply (scan_with_binary _ _ pre (subPath, RegFile)).
Qed.

(** X2: when no entry of a directory is a regular file with a known
    suffix, the search of the directory is the search of its first entry and
    of nothing else: what it returns or throws there is the result, and the
    later entries play no part. *)
Theorem findGodotExecutablePath_first_entry_only basePath subPath node rest :
  forallb (fun e => negb (is_binary basePath e)) ((subPath, node) :: rest) = true ->
  findGodotExecutablePath basePath (Directory ((subPath, node) :: rest))
  = findGodotExecutablePath (path.join [basePath; subPath]) node.
Proof.
  intros Hno. rewrite findGodotExecutablePath_unfold.
  by rewrite scan_with_no_binary.
Qed.

Lemma scan_with_sound (search : string -> fsnode -> outcome (option string))
    basePath entries paths dirs p :
  (forall e, In e paths -> In e entries) ->
  (forall e q, In e entries ->
     search (path.join [basePath; fst e]) (snd e) = Return (Some q) ->
     file_below (path.join [basePath; fst e]) (snd e) q
     /\ Design.known_suffix q = true) ->
  (forall r q, In r dirs -> r = Return (Some q) ->
     file_below basePath (Directory entries) q /\ Design.known_suffix q = true) ->
  scan_with search basePath paths dirs = Return (Some p) ->
  file_below basePath (Directory entries) p /\ Design.known_suffix p = true.
Proof.
  revert dirs. induction paths as [| [s n] paths IH]; intros dirs Hsub Hsearch Hdirs Hrun.
  - cbn in Hrun. destruct dirs as [| r dirs]; [discriminate |].
    apply (Hdirs r p); [by left | done].
  - cbn [scan_with] in Hrun.
    destruct (isFile n && _) eqn:Hbin.
    + injection Hrun as <-. apply andb_true_iff in Hbin as [Hfile Hext].
      destruct n; try discriminate. split; [| exact Hext].
      apply file_here. apply Hsub. by left.
    + apply (IH (dirs ++ [search (path.join [basePath; s]) n])); [| done | | done].
      * intros e He. apply Hsub. by right.
      * intros r q [Hr | Hr]%in_app_iff Hq; [by apply (Hdirs r q) |].
        destruct Hr as [<- | []].
        assert (In (s, n) entries) as Hin by (apply Hsub; by left).
        destruct (Hsearch (s, n) q Hin Hq) as [Hbelow Hext].
        split; [| done]. by apply (file_deeper basePath entries s n q).
Qed.

(** X3: whatever path the search returns is the path of a regular file
    that lies in the searched tree and has one of the two known suffixes. *)
Theorem findGodotExecutablePath_sound basePath n p :
  findGodotExecutablePath basePath n = Return (Some p) ->
  file_below basePath n p /\ Design.known_suffix p = true.
Proof.
  revert basePath p.
  refine ((fix go (n : fsnode) : forall basePath p,
             findGodotExecutablePath basePath n = Return (Some p) ->
             file_below basePath n p /\ Design.known_suffix p = true :=
             match n with
             | Directory entries => fun basePath p Hrun => _
             | _ => fun basePath p Hrun => _
             end) n); try discriminate Hrun.
  rewrite findGodotExecutablePath_unfold in Hrun.
  apply (scan_with_sound findGodotExecutablePath basePath entries entries [] p);
    [done | | by intros ? ? [] | done].
  clear Hrun p. induction entries as [| [s c] entries IH]; intros e q [].
  - subst e. cbn. apply go.
  - by apply IH.
Qed.

Lemma findGodotExecutablePath_top_level_first_witness :
  findGodotExecutablePath "/w" flat_toolchain
  = Return (Some "/w/Godot_v4.2_linux.64").
Proof.
  exact (findGodotExecutablePath_top_level_first "/w"
           [("3.5", Directory [("Godot_v3.5_linux.64", RegFile)]); ("COPYRIGHT.txt", RegFile)]
           "Godot_v4.2_linux.64" [("Godot_v4.2_linux.x86_64", RegFile)] eq_refl eq_refl).
Defined.

Lemma findGodotExecutablePath_first_entry_only_witness :
  findGodotExecutablePath "/w" Sample.toolchain
  = findGodotExecutablePath "/w/GodotSharp" (Directory [("Api", Directory [])]).
Proof.
  exact (findGodotExecutablePath_first_entry_only "/w" "GodotSharp"
           (Directory [("Api", Directory [])])
           [("Godot_v4", Directory
               [("linux", Directory
                  [("bin", Directory [("Godot_v4.2_linux.x86_64", RegFile)])])]);
            ("empty", Directory [])]
           eq_refl).
Defined.

Lemma findGodotExecutablePath_sound_witness :
  file_below "/w" flat_toolchain "/w/Godot_v4.2_linux.64"
  /\ Design.known_suffix "/w/Godot_v4.2_linux.64" = true.
Proof.
  exact (findGodotExecutablePath_sound "/w" flat_toolchain "/w/Godot_v4.2_linux.64"
           eq_refl).
Defined.

(** X4: [prepareExecutable] returns only when the search has found a file
    below the extraction folder; what it then renames to [godot], in the
    folder of that file, is this regular file with a known suffix, and the
    renamed file is the one made executable. *)
Theorem prepareExecutable_renames_found_binary cfg env tr tr' :
  prepareExecutable cfg env tr = (Return tt, tr') ->
  let zipTo := path.join [GODOT_WORKING_PATH cfg; GODOT_EXECUTABLE] in
  let extract := Exec "7z" ["x"; path.join [GODOT_WORKING_PATH cfg; GODOT_ZIP];
                            "-o" +:+ zipTo; "-y"] in
  exists n exe,
    tree_at env (tr ++ [extract]) zipTo = Some n
    /\ file_below zipTo n exe
    /\ Design.known_suffix exe = true
    /\ tr' = tr ++ [extract;
                    Exec "mv" [exe; path.join [path.dirname exe; "godot"]];
                    AddPath (path.dirname (path.join [path.dirname exe; "godot"]));
                    Exec "chmod" ["+x"; path.join [path.dirname exe; "godot"]]].
Proof.
  intros Hrun zipTo extract. unfold prepareExecutable in Hrun. run. unfold exec in Hrun.
  fold zipTo in Hrun. fold extract in Hrun.
  destruct (exec_rejects env && negb (Z.eqb (exec_status env tr "7z" _) 0));
    [discriminate |].
  cbn in Hrun.
  destruct (tree_at env (tr ++ [extract]) zipTo) as [n |] eqn:Htree; [| discriminate].
  cbn in Hrun.
  destruct (findGodotExecutablePath zipTo n) as [[exe |] | msg] eqn:Hfind;
    cbn in Hrun; [| discriminate | discriminate].
  destruct (Js.truthy exe); cbn in Hrun; [| discriminate].
  destruct (findGodotExecutablePath_sound _ _ _ Hfind) as [Hbelow Hext].
  exists n, exe. split; [done |]. split; [done |]. split; [done |].
  destruct (exec_rejects env && negb (Z.eqb (exec_status env _ "mv" _) 0));
    [discriminate |].
  cbn in Hrun.
  destruct (exec_rejects env && negb (Z.eqb (exec_status env _ "chmod" _) 0));
    [discriminate |].
  cbn in Hrun. injection Hrun as <-. by rewrite <- !app_assoc.
Qed.

Lemma prepareExecutable_renames_found_binary_witness :
  let cfg := Sample.inputs true false false false in
  exists n exe,
    tree_at (Sample.env None (Some flat_toolchain))
      [Exec "7z" ["x"; "/home/runner/.local/share/godot/godot.zip";
                  "-o/home/runner/.local/share/godot/godot_executable"; "-y"]]
      "/home/runner/.local/share/godot/godot_executable" = Some n
    /\ file_below "/home/runner/.local/share/godot/godot_executable" n exe
    /\ Design.known_suffix exe = true
    /\ snd (prepareExecutable cfg (Sample.env None (Some flat_toolchain)) [])
       = [Exec "7z" ["x"; "/home/runner/.local/share/godot/godot.zip";
                     "-o/home/runner/.local/share/godot/godot_executable"; "-y"];
          Exec "mv" [exe; path.join [path.dirname exe; "godot"]];
          AddPath (path.dirname (path.join [path.dirname exe; "godot"]));
          Exec "chmod" ["+x"; path.join [path.dirname exe; "godot"]]].
Proof.
  intros cfg.
  exact (prepareExecutable_renames_found_binary cfg (Sample.env None (Some flat_toolchain))
           [] _ eq_refl).
Defined.

(** ** The export loop beyond the claims *)



(** X6: the number of engine invocations a run of the loop makes never
    exceeds the number of presets with an export path, whether the run
    returns or throws, and it returns no more artifacts than it made
    invocations. *)
Theorem doExport_loop_invocations_bounded cfg env presets acc tr :
  let run := doExport_loop cfg env presets acc tr in
  exists calls,
    godot_calls (snd run) = godot_calls tr ++ calls
    /\ length calls <= length (List.filter has_export_path presets)
    /\ (forall results, fst run = Return results ->
          length results = length acc + length calls).
Proof.
  revert acc tr. induction presets as [| p presets IH]; intros acc tr; cbv zeta.
  - exists []. cbn. rewrite app_nil_r. split; [done |]. split; [done |].
    intros results [= <-]. lia.
  - destruct (executablePath_of cfg p) as [base |] eqn:Hexe.
    + destruct (executablePath_of_Some _ _ _ Hexe) as [Hp _].
      rewrite (doExport_loop_export _ _ _ _ _ _ _ Hexe). cbv zeta.
      unfold has_export_path at 1. cbn [List.filter]. rewrite Hp. cbn [length].
      destruct (mkdirP_error env tr _).
      { exists []. cbn [fst snd]. rewrite godot_calls_app. cbn.
        split; [done |]. split; [apply Nat.le_0_l | discriminate]. }
      destruct (Z.eqb _ 0); [destruct (readdirSync env _ _) |].
      * edestruct IH as (calls & Hcalls & Hlen & Hres).
        exists (export_args cfg p (pck_suffix cfg base) :: calls).
        split; [| split; [apply le_n_S; exact Hlen |]].
        -- rewrite Hcalls, !godot_calls_app. cbn. by rewrite <- !app_assoc.
        -- intros results Hr. apply Hres in Hr. rewrite length_app in Hr. cbn in *. lia.
      * exists [export_args cfg p (pck_suffix cfg base)].
        split; [| split; [apply le_n_S, Nat.le_0_l | discriminate]].
        cbn [snd]. rewrite !godot_calls_app. cbn. by rewrite <- !app_assoc.
      * exists [export_args cfg p (pck_suffix cfg base)].
        split; [| split; [apply le_n_S, Nat.le_0_l | discriminate]].
        cbn [snd]. rewrite !godot_calls_app. cbn. by rewrite <- !app_assoc.
    + assert (Js.truthy (export_path p) = false) as Hp.
      { unfold executablePath_of in Hexe. by destruct (Js.truthy (export_path p)). }
      rewrite (doExport_loop_skip _ _ _ _ _ _ Hp).
      unfold has_export_path at 1. cbn [List.filter]. rewrite Hp.
      edestruct IH as (calls & Hcalls & Hlen & Hres). rewrite Hcalls.
      rewrite godot_calls_app. cbn. rewrite app_nil_r.
      exists calls. split; [reflexivity |]. split; [exact Hlen | exact Hres].
Qed.

Lemma doExport_loop_invocations_bounded_witness :
  let cfg := Sample.inputs true false false false in
  let run := doExport_loop cfg (Sample.failing_env None)
               [Sample.linux; Sample.unset; Sample.windows] [] [] in
  exists calls results,
    fst run = Return results
    /\ godot_calls (snd run) = calls
    /\ length calls <= 2
    /\ length results = length calls.
Proof.
  intros cfg run.
  destruct (doExport_loop_invocations_bounded cfg (Sample.failing_env None)
              [Sample.linux; Sample.unset; Sample.windows] [] [])
    as (calls & Hcalls & Hlen & Hres).
  exists calls. eexists. split; [reflexivity |]. split; [exact Hcalls |].
  split; [exact Hlen |]. exact (Hres _ eq_refl).
Defined.

(** ** Relocation beyond the claim *)





(** ** Base names *)

Lemma span_segment_no_slash (s : string) :
  no_slash (fst (path.span_segment s)) = true.
Proof.
  induction s as [| c s IH]; cbn; [done |].
  destruct (Ascii.eqb c path.slash) eqn:Hc; [done |].
  destruct (path.span_segment s) as [seg rest]. cbn in *. by rewrite Hc, IH.
Qed.

Lemma basename_no_slash (p : string) : no_slash (path.basename p) = true.
Proof.
  unfold path.basename, no_slash. rewrite all_chars_rev. apply span_segment_no_slash.
Qed.

Lemma span_segment_whole (a : string) :
  no_slash a = true -> path.span_segment a = (a, "").
Proof.
  induction a as [| c a IH]; cbn; [done |].
  intros [Hc Ha]%andb_true_iff. apply negb_true_iff in Hc. by rewrite Hc, (IH Ha).
Qed.

Lemma span_segment_append (a x : string) :
  no_slash a = true ->
  path.span_segment (a +:+ String path.slash x) = (a, String path.slash x).
Proof.
  induction a as [| c a IH]; [done |].
  rewrite append_cons. cbn. intros [Hc Ha]%andb_true_iff. apply negb_true_iff in Hc.
  by rewrite Hc, (IH Ha).
Qed.

Lemma drop_slashes_no_slash (a x : string) :
  no_slash a = true -> a <> "" -> path.drop_slashes (a +:+ x) = a +:+ x.
Proof.
  destruct a as [| c a]; [done |]. rewrite append_cons. cbn.
  intros [Hc _]%andb_true_iff _. apply negb_true_iff in Hc. by rewrite Hc.
Qed.

Lemma rev_nonempty (s : string) : s <> "" -> Js.rev s <> "".
Proof.
  intros Hs Hrev. apply (f_equal Js.rev) in Hrev. by rewrite rev_involutive in Hrev.
Qed.

Lemma no_slash_rev (s : string) : no_slash (Js.rev s) = no_slash s.
Proof. apply all_chars_rev. Qed.

(** The base name of a path that ends in a separator and a plain name is
    that name. *)
Lemma basename_after_slash (q s : string) :
  no_slash s = true -> s <> "" -> path.basename (q +:+ "/" +:+ s) = s.
Proof.
  intros Hs H0. unfold path.basename.
  rewrite <- append_assoc, rev_append, rev_append.
  change (Js.rev "/") with "/". change ("/" +:+ Js.rev q) with (String path.slash (Js.rev q)).
  rewrite drop_slashes_no_slash by (rewrite ?no_slash_rev; auto using rev_nonempty).
  rewrite span_segment_append by by rewrite no_slash_rev.
  apply rev_involutive.
Qed.

Lemma basename_plain (s : string) :
  no_slash s = true -> s <> "" -> path.basename s = s.
Proof.
  intros Hs H0. unfold path.basename.
  rewrite <- (append_nil_r (Js.rev s)).
  rewrite drop_slashes_no_slash by (rewrite ?no_slash_rev; auto using rev_nonempty).
  rewrite append_nil_r, span_segment_whole by by rewrite no_slash_rev.
  apply rev_involutive.
Qed.

Lemma dir_prefix_shape (base : string) :
  dir_prefix base = "" \/ exists q, dir_prefix base = q +:+ "/".
Proof.
  unfold dir_prefix. destruct (Js.truthy base); [| by left].
  destruct (List.rev _) as [| x l].
  - destruct (path.starts_with_slash base); [right; by exists "" | by left].
  - right. destruct (path.starts_with_slash base).
    + exists ("/" +:+ path.glue (x :: l)). by rewrite append_assoc.
    + by exists (path.glue (x :: l)).
Qed.

Lemma basename_join_plain base (s : string) :
  plain s -> path.basename (path.join [base; s]) = s.
Proof.
  intros Hs. rewrite (join_plain base s Hs). destruct Hs as (Hns & H0 & _).
  destruct (dir_prefix_shape base) as [-> | [q ->]].
  - by apply basename_plain.
  - rewrite append_assoc. by apply basename_after_slash.
Qed.

(** ** From export to packaging to relocation *)

(** X9: an artifact that the packager has returned is relocated, in
    archived mode, under the name its archive has: once the destination
    is created, the copy is started from [archives/<sanitizedName>.zip]
    to [<destination>/<sanitizedName>.zip]; when the copy goes through,
    that is the artifact's archive path afterwards, and when it is
    rejected the relocation ends in its error. *)
Theorem packaged_archive_keeps_its_name cfg env br br1 tr tr1 tr2 :
  no_slash (sanitizedName br) = true ->
  File.zipBuildResult cfg env br tr = (Return br1, tr1)
  \/ FileSteam.zipBuildResult cfg env br tr = (Return br1, tr1) ->
  let dest := File.fullExportPath cfg br in
  let moved := path.join [dest; sanitizedName br +:+ ".zip"] in
  mkdirP_error env tr2 dest = None ->
  File.moveBuildsToExportDirectory cfg env [br1] true tr2
  = (match cp_error env (tr2 ++ [MkdirP dest]) (zipPath_of cfg br) moved false true with
     | Some msg => Throw msg
     | None => Return [with_archivePath br1 moved]
     end,
     tr2 ++ [MkdirP dest; Cp (zipPath_of cfg br) moved false true]).
Proof.
  intros Hname Hzip dest moved Hdir.
  assert (br1 = with_archivePath br (zipPath_of cfg br)) as ->.
  { destruct Hzip as [Hzip | Hzip];
      [by apply File_zip_returns in Hzip | by apply FileSteam_zip_returns in Hzip]. }
  assert (path.basename (zipPath_of cfg br) = sanitizedName br +:+ ".zip") as Hbase
    by by apply basename_join_plain, zip_name_plain.
  assert (Js.truthy (zipPath_of cfg br) = true) as Htruthy by apply join_truthy.
  unfold File.moveBuildsToExportDirectory. cbn [File.moveBuilds_loop]. run.
  unfold mkdirP, start_cp.
  change (File.fullExportPath cfg (with_archivePath br (zipPath_of cfg br))) with dest.
  rewrite Hdir.
  cbn [archivePath with_archivePath Js.truthy_opt default].
  rewrite Htruthy. cbn [negb].
  change (id (zipPath_of cfg br)) with (zipPath_of cfg br).
  rewrite !Hbase. fold moved. cbn [fst snd await_all]. unfold await. run.
  rewrite <- app_assoc. cbn [app].
  by destruct (cp_error env _ (zipPath_of cfg br) moved false true).
Qed.

Lemma packaged_archive_keeps_its_name_witness :
  let cfg := Sample.inputs true false false false in
  let br := Sample.artifact Sample.windows None in
  File.moveBuildsToExportDirectory cfg Sample.archiving_env
    [with_archivePath br "/home/runner/.local/share/godot/archives/Windows.zip"] true []
  = (Return [with_archivePath
               (with_archivePath br "/home/runner/.local/share/godot/archives/Windows.zip")
               "/work/game/build/win/Windows.zip"],
     [MkdirP "/work/game/build/win";
      Cp "/home/runner/.local/share/godot/archives/Windows.zip"
         "/work/game/build/win/Windows.zip" false true]).
Proof.
  intros cfg br.
  exact (packaged_archive_keeps_its_name cfg Sample.archiving_env br _ [] _ []
           eq_refl (or_introl eq_refl) eq_refl).
Defined.

(** [io.cp] without the recursive option rejects the copy of a path onto
    itself, whatever is on the disk: there is nothing at the path, or a
    directory, or a file that would be copied onto itself. *)
Lemma Io_cp_onto_itself_rejects cwd p (fs : Io.filesystem) :
  exists msg, fst (Io.cp cwd p p true fs) = Throw msg.
Proof.
  unfold Io.cp. cbn [negb].
  destruct (fs !! path.resolve cwd p) as [[content |] |] eqn:Hp; rewrite ?Hp.
  - rewrite String.eqb_refl. by eexists.
  - by eexists.
  - by eexists.
Qed.

(** X10: relocating in archived mode an artifact that was already
    relocated ends in an exception, in an environment where [io.cp]
    rejects the copy of a path onto itself, as it does without the
    recursive option: the copy it starts, when the destination directory
    is created, has the relocated archive as source and as destination. *)
Theorem relocating_again_copies_archive_onto_itself cfg env br archive tr :
  archivePath br = Some archive ->
  plain (path.basename archive) ->
  cp_rejects_same_path env ->
  let dest := File.fullExportPath cfg br in
  let moved := path.join [dest; path.basename archive] in
  exists msg,
    File.moveBuildsToExportDirectory cfg env [with_archivePath br moved] true tr
    = (Throw msg,
       tr ++ MkdirP dest
             :: match mkdirP_error env tr dest with
                | Some _ => []
                | None => [Cp moved moved false true]
                end).
Proof.
  intros Harch Hbase Hsame dest moved.
  unfold File.moveBuildsToExportDirectory. cbn [File.moveBuilds_loop]. run.
  unfold mkdirP, start_cp.
  change (File.fullExportPath cfg (with_archivePath br moved)) with dest.
  destruct (mkdirP_error env tr dest) as [msg |]; [by eexists |].
  cbn [archivePath with_archivePath Js.truthy_opt default].
  unfold moved at 1. rewrite join_truthy. cbn [negb].
  change (id moved) with moved.
  assert (path.basename moved = path.basename archive) as ->
    by by apply basename_join_plain.
  fold moved. cbn [fst snd await_all]. unfold await. run.
  rewrite <- app_assoc. cbn [app].
  specialize (Hsame (tr ++ [MkdirP dest]) moved).
  destruct (cp_error env _ moved moved false true) as [msg |]; [by eexists | done].
Qed.

Lemma relocating_again_copies_archive_onto_itself_witness :
  let cfg := Sample.inputs true false false false in
  let br := Sample.artifact Sample.windows
              (Some "/home/runner/.local/share/godot/archives/Windows.zip") in
  exists msg,
    File.moveBuildsToExportDirectory cfg Sample.same_file_env
      [with_archivePath br "/work/game/build/win/Windows.zip"] true []
    = (Throw msg,
       [MkdirP "/work/game/build/win";
        Cp "/work/game/build/win/Windows.zip" "/work/game/build/win/Windows.zip"
           false true]).
Proof.
  intros cfg br.
  refine (relocating_again_copies_archive_onto_itself cfg Sample.same_file_env br
            "/home/runner/.local/share/godot/archives/Windows.zip" [] eq_refl _ _).
  - repeat split; first [reflexivity | vm_compute; discriminate].
  - intros t p. unfold Sample.same_file_env. cbn. rewrite String.eqb_refl. discriminate.
Defined.

(** X11: the scratch build directory of a preset is the builds root
    followed by the sanitized preset name, which holds no separator: the
    directory is a direct child of the builds root and its base name is the
    sanitized name, whatever the preset is called.  A preset whose name is
    sanitized to nothing builds in the builds root itself. *)
Theorem buildDir_is_child_of_builds_root cfg p :
  no_slash (sanitize (name p)) = true
  /\ (sanitize (name p) <> "" ->
      buildDir_of cfg p = dir_prefix (GODOT_BUILD_PATH cfg) +:+ sanitize (name p)
      /\ path.basename (buildDir_of cfg p) = sanitize (name p))
  /\ (sanitize (name p) = "" -> buildDir_of cfg p = path.join [GODOT_BUILD_PATH cfg]).
Proof.
  split; [apply sanitize_no_slash |]. split.
  - intros Hne. destruct (sanitize_plain (name p)) as [He | Hplain]; [done |].
    unfold buildDir_of. split; [by apply join_plain | by apply basename_join_plain].
  - intros He. unfold buildDir_of. rewrite He. reflexivity.
Qed.

Lemma buildDir_is_child_of_builds_root_witness :
  let cfg := Sample.inputs true false false false in
  let evil := {| name := "../../etc/cron.d"; platform := "Linux/X11";
                 export_path := "x/game.x86_64" |} in
  let dots := {| name := ".."; platform := "Linux/X11"; export_path := "x/game.x86_64" |} in
  buildDir_of cfg evil = "/home/runner/.local/share/godot/builds/....etccron.d"
  /\ buildDir_of cfg dots = "/home/runner/.local/share/godot/builds".
Proof.
  intros cfg evil dots.
  destruct (buildDir_is_child_of_builds_root cfg evil) as (_ & Hchild & _).
  destruct (buildDir_is_child_of_builds_root cfg dots) as (_ & _ & Hroot).
  split.
  - destruct Hchild as [Heq _]; [vm_compute; discriminate | exact Heq].
  - exact (Hroot eq_refl).
Defined.

Lemma pck_name_plain cfg (b : string) : plain b -> plain (pck_suffix cfg b).
Proof.
  intros (Hns & H0 & H1 & H2). unfold pck_suffix.
  destruct (EXPORT_PACK_ONLY cfg); [| done].
  split; [| split; [| split]].
  - unfold no_slash in *. by rewrite all_chars_append, Hns.
  - by apply append_nonempty_r.
  - intros H. apply (f_equal String.length) in H. rewrite length_append in H.
    cbn in H. lia.
  - intros H. apply (f_equal String.length) in H. rewrite length_append in H.
    cbn in H. lia.
Qed.

Lemma pck_suffix_join cfg dir (b : string) :
  plain b -> pck_suffix cfg (path.join [dir; b]) = path.join [dir; pck_suffix cfg b].
Proof.
  intros Hb. rewrite (join_plain dir _ (pck_name_plain cfg b Hb)), (join_plain dir b Hb).
  unfold pck_suffix. destruct (EXPORT_PACK_ONLY cfg); [| done]. by rewrite append_assoc.
Qed.

(** X12: relocation of the raw output lays an exported artifact out as
    [<destination>/<sanitizedName>/<file>]: for an artifact as [doExport]
    records it, whose preset name is not sanitized to nothing and whose
    export path has a plain file name, the folder becomes the destination
    joined with the sanitized name, and the output file the new folder
    joined with the file name (with [.pck] when pack-only is set). *)
Theorem exported_artifact_relocated_raw cfg r :
  artifact_of cfg r ->
  sanitize (name (preset r)) <> "" ->
  plain (path.basename (export_path (preset r))) ->
  let dest := File.fullExportPath cfg r in
  directory (relocated_raw cfg r) = path.join [dest; sanitize (name (preset r))]
  /\ executablePath (relocated_raw cfg r)
     = path.join [path.join [dest; sanitize (name (preset r))];
                  pck_suffix cfg (path.basename (export_path (preset r)))].
Proof.
  intros (Hsan & Hdir & Harch & Hexe) Hne Hbase dest.
  destruct (sanitize_plain (name (preset r))) as [He | Hplain]; [done |].
  assert (path.basename (directory r) = sanitize (name (preset r))) as Hb.
  { rewrite Hdir. unfold buildDir_of. by apply basename_join_plain. }
  unfold relocated_raw. cbn [directory executablePath]. fold dest. rewrite Hb.
  split; [done |].
  rewrite Hexe, pck_suffix_join by done.
  by rewrite basename_join_plain by by apply pck_name_plain.
Qed.

Lemma exported_artifact_relocated_raw_witness :
  let cfg := Sample.inputs true false true false in
  let r := built cfg Sample.linux
             "/home/runner/.local/share/godot/builds/Linux/game.x86_64.pck" ["game.pck"] in
  directory (relocated_raw cfg r) = "/work/game/build/linux/Linux"
  /\ executablePath (relocated_raw cfg r) = "/work/game/build/linux/Linux/game.x86_64.pck".
Proof.
  intros cfg r.
  refine (exported_artifact_relocated_raw cfg r _ _ _).
  - repeat split.
  - vm_compute. discriminate.
  - repeat split; first [reflexivity | vm_compute; discriminate].
Defined.

(** ** Version normalisation *)

Example normalize_version_ex1 :
  normalize_version ("4.0.2.stable.official.7a0977ce2" +:+ newline) = "4.0.2.stable".
Proof. reflexivity. Qed.
Example normalize_version_ex2 : normalize_version "3.5.1.stable.official" = "3.5.1.stable".
Proof. reflexivity. Qed.
Example normalize_version_ex3 :
  normalize_version "  4.1.dev.custom_build.abcdef012  " = "4.1.dev".
Proof. reflexivity. Qed.
Example normalize_version_ex4 : normalize_version "3.2.4.beta12345" = "3.2.4".
Proof. reflexivity. Qed.

(** *** Searching and replacing *)

Lemma prefix_length (p s : string) :
  String.prefix p s = true -> String.length p <= String.length s.
Proof.
  revert s. induction p as [| a p IH]; intros s; [cbn; lia |].
  destruct s as [| b s]; cbn; [discriminate |].
  destruct (ascii_dec a b); [| discriminate]. intros H%IH. lia.
Qed.

Lemma includes_short (p s : string) :
  String.length s < String.length p -> JsText.includes p s = false.
Proof.
  induction s as [| c s IH]; intros Hlen; cbn.
  - destruct p; [cbn in Hlen; lia | reflexivity].
  - rewrite IH by (cbn in Hlen; lia). rewrite orb_false_r.
    destruct (String.prefix p (String c s)) eqn:Hp; [| done].
    apply prefix_length in Hp. lia.
Qed.

Lemma includes_cons (p : string) (c : ascii) (s : string) :
  JsText.includes p (String c s) = String.prefix p (String c s) || JsText.includes p s.
Proof. reflexivity. Qed.

(** A pattern found at the start of [b +:+ s] lies in [b], or ends with a
    proper tail of itself at the start of [s]. *)
Lemma prefix_append_inv (p b s : string) :
  b <> "" ->
  String.prefix p (b +:+ s) = true ->
  String.prefix p b = true
  \/ exists p2, In p2 (proper_tails p) /\ p2 <> "" /\ String.prefix p2 s = true.
Proof.
  revert p. induction b as [| c b IH]; intros p Hb Hp; [done |].
  destruct p as [| a p]; [by left |].
  rewrite append_cons in Hp. cbn in Hp |- *.
  destruct (ascii_dec a c); [| discriminate].
  destruct b as [| c' b].
  - change ("" +:+ s) with s in Hp. destruct p as [| a' p]; [by left |].
    right. exists (String a' p). cbn. split; [by left |]. split; [done | exact Hp].
  - destruct (IH p) as [Hin | (p2 & Hin & Hne & Hpre)]; [done | done | by left |].
    right. exists p2. cbn. split; [by right | done].
Qed.

Lemma includes_append (p b s : string) :
  JsText.includes p b = false ->
  JsText.includes p s = false ->
  forallb (fun p2 => negb (String.prefix p2 s) || String.eqb p2 "") (proper_tails p) = true ->
  JsText.includes p (b +:+ s) = false.
Proof.
  intros Hb Hs Htails. induction b as [| c b IH]; [exact Hs |].
  rewrite includes_cons in Hb. apply orb_false_iff in Hb as [Hhead Hb].
  rewrite append_cons, includes_cons, <- append_cons, (IH Hb), orb_false_r.
  destruct (String.prefix p (String c b +:+ s)) eqn:Hp; [| done].
  apply prefix_append_inv in Hp as [Hp | (p2 & Hin & Hne & Hpre)]; [congruence | | done].
  rewrite forallb_forall in Htails. specialize (Htails p2 Hin).
  apply String.eqb_neq in Hne. by rewrite Hpre, Hne in Htails.
Qed.

Lemma replace_absent (p rep s : string) :
  JsText.includes p s = false -> Js.replace p rep s = s.
Proof.
  induction s as [| c s IH].
  - cbn. rewrite orb_false_r. by intros ->.
  - rewrite includes_cons. intros [Hp Hs]%orb_false_iff.
    cbn [Js.replace]. by rewrite Hp, IH.
Qed.

Lemma drop_append (a b : string) : Js.drop (String.length a) (a +:+ b) = b.
Proof. induction a as [| c a IH]; [by destruct b | rewrite append_cons; exact IH]. Qed.

Lemma prefix_append_same (p s : string) : String.prefix p (p +:+ s) = true.
Proof.
  induction p as [| a p IH]; [by destruct s |].
  rewrite append_cons. cbn. by destruct (ascii_dec a a).
Qed.

(** The first occurrence of [p] in [b +:+ p +:+ rest] is the one after [b]
    when [b] holds none and none starts in [b] and ends in what follows. *)
Lemma replace_first_after (p rep b rest : string) :
  JsText.includes p b = false ->
  forallb (fun p2 => negb (String.prefix p2 (p +:+ rest)) || String.eqb p2 "")
    (proper_tails p) = true ->
  Js.replace p rep (b +:+ p +:+ rest) = b +:+ rep +:+ rest.
Proof.
  intros Hb Htails. induction b as [| c b IH].
  - change ("" +:+ p +:+ rest) with (p +:+ rest).
    destruct (p +:+ rest) eqn:Hs.
    + destruct p; [| discriminate Hs]. destruct rest; [| discriminate Hs]. by destruct rep.
    + rewrite <- Hs. unfold Js.replace. fold Js.replace.
      assert (forall s, Js.replace p rep s
                        = if String.prefix p s then rep +:+ Js.drop (String.length p) s
                          else match s with
                               | "" => ""
                               | String c s' => String c (Js.replace p rep s')
                               end) as Hunfold by (by intros []).
      rewrite Hunfold, prefix_append_same, drop_append. reflexivity.
  - rewrite includes_cons in Hb. apply orb_false_iff in Hb as [Hhead Hb].
    rewrite !append_cons. cbn [Js.replace]. rewrite <- append_cons.
    destruct (String.prefix p (String c b +:+ p +:+ rest)) eqn:Hp.
    + apply prefix_append_inv in Hp as [Hp | (p2 & Hin & Hne & Hpre)];
        [congruence | | done].
      rewrite forallb_forall in Htails. specialize (Htails p2 Hin).
      apply String.eqb_neq in Hne. by rewrite Hpre, Hne in Htails.
    + by rewrite (IH Hb).
Qed.

(** *** Trimming and the commit hash *)

Lemma drop_while_all p (s : string) :
  all_chars p s = true -> Sanitize.drop_while p s = "".
Proof.
  induction s as [| c s IH]; cbn; [done |].
  intros [Hc Hs]%andb_true_iff. by rewrite Hc, IH.
Qed.

Lemma drop_while_append_all p (a b : string) :
  all_chars p a = true ->
  Sanitize.drop_while p (a +:+ b) = Sanitize.drop_while p b.
Proof.
  induction a as [| c a IH]; [done |]. rewrite append_cons. cbn.
  intros [Hc Ha]%andb_true_iff. by rewrite Hc, IH.
Qed.

Lemma drop_while_append_kept p (a b : string) :
  Sanitize.drop_while p a <> "" ->
  Sanitize.drop_while p (a +:+ b) = Sanitize.drop_while p a +:+ b.
Proof.
  induction a as [| c a IH]; [done |]. rewrite append_cons. cbn.
  destruct (p c); [exact IH | by rewrite append_cons].
Qed.

Lemma drop_while_empty p (s : string) :
  Sanitize.drop_while p s = "" -> all_chars p s = true.
Proof.
  induction s as [| c s IH]; [done |]. cbn.
  destruct (p c); [exact IH | discriminate].
Qed.

Lemma trim_trailing (v t : string) :
  all_chars JsText.is_whitespace t = true -> JsText.trim (v +:+ t) = JsText.trim v.
Proof.
  intros Ht. unfold JsText.trim.
  destruct (String.eqb (Sanitize.drop_while JsText.is_whitespace v) "") eqn:Hv.
  - apply String.eqb_eq in Hv. rewrite Hv.
    assert (all_chars JsText.is_whitespace v = true) as Hall
      by by apply drop_while_empty.
    rewrite (drop_while_append_all _ v t Hall), (drop_while_all _ t Ht). reflexivity.
  - apply String.eqb_neq in Hv. rewrite drop_while_append_kept by done.
    rewrite rev_append.
    rewrite (drop_while_append_all _ (Js.rev t)) by by rewrite all_chars_rev.
    reflexivity.
Qed.

Lemma trim_fixed (c : ascii) (s : string) (d : ascii) (r : string) :
  JsText.is_whitespace c = false ->
  Js.rev (String c s) = String d r ->
  JsText.is_whitespace d = false ->
  JsText.trim (String c s) = String c s.
Proof.
  intros Hc Hrev Hd. unfold JsText.trim. cbn [Sanitize.drop_while]. rewrite Hc, Hrev.
  cbn [Sanitize.drop_while]. rewrite Hd, <- Hrev. apply rev_involutive.
Qed.

Lemma lower_alnum_not_whitespace (c : ascii) :
  JsText.lower_alnum c = true -> JsText.is_whitespace c = false.
Proof.
  destruct c as [[] [] [] [] [] [] [] []]; vm_compute; congruence.
Qed.

Lemma length_rev (s : string) : String.length (Js.rev s) = String.length s.
Proof.
  induction s as [| c s IH]; [done |]. rewrite rev_cons, length_append. cbn. lia.
Qed.

Lemma take_append (a b : string) : JsText.take (String.length a) (a +:+ b) = a.
Proof.
  induction a as [| c a IH]; [by destruct b |]. rewrite append_cons. cbn. by rewrite IH.
Qed.

Lemma strip_commit_hash_appended (base hash : string) :
  String.length hash = 9 ->
  all_chars JsText.lower_alnum hash = true ->
  JsText.strip_commit_hash (base +:+ "." +:+ hash) = base.
Proof.
  intros Hlen Hall. unfold JsText.strip_commit_hash.
  rewrite <- append_assoc, rev_append, rev_append.
  change (Js.rev ".") with ".". change ("." +:+ Js.rev base) with (String "." (Js.rev base)).
  assert (String.length (Js.rev hash) = 9) as Hlen' by by rewrite length_rev.
  assert (JsText.take 9 (Js.rev hash +:+ String "." (Js.rev base)) = Js.rev hash) as ->
    by (rewrite <- Hlen'; apply take_append).
  assert (Js.drop 9 (Js.rev hash +:+ String "." (Js.rev base)) = String "." (Js.rev base))
    as -> by (rewrite <- Hlen'; apply drop_append).
  rewrite Hlen', all_chars_rev, Hall. cbn.
  apply rev_involutive.
Qed.

Lemma rev_last_lower_alnum (x hash : string) :
  String.length hash = 9 ->
  all_chars JsText.lower_alnum hash = true ->
  exists d r, Js.rev (x +:+ hash) = String d r /\ JsText.is_whitespace d = false.
Proof.
  intros Hlen Hall. rewrite rev_append.
  rewrite <- all_chars_rev in Hall. rewrite <- length_rev in Hlen.
  destruct (Js.rev hash) as [| d r]; [discriminate |].
  exists d, (r +:+ Js.rev x). split; [by rewrite append_cons |].
  cbn in Hall. apply andb_true_iff in Hall as [Hd _].
  by apply lower_alnum_not_whitespace.
Qed.

(** X13: for an official build, whose [--version] output is a base version
    followed by [.official], a dot, a commit hash of nine characters of
    [a-z0-9] and trailing white space, the version is the base version,
    provided the base version starts with no white space and holds neither
    [.official] nor [.custom_build]. *)
Theorem getGodotVersion_official_build version_stdout tr c0 base' hash trailing :
  let base := String c0 base' in
  JsText.is_whitespace c0 = false ->
  JsText.includes ".official" base = false ->
  JsText.includes ".custom_build" base = false ->
  String.length hash = 9 ->
  all_chars JsText.lower_alnum hash = true ->
  all_chars JsText.is_whitespace trailing = true ->
  version_stdout tr = base +:+ ".official." +:+ hash +:+ trailing ->
  getGodotVersion version_stdout tr
  = (Return base, tr ++ [Exec "godot" ["--version"]]).
Proof.
  intros base Hc0 Hoff Hcb Hlen Hall Hws Hout.
  unfold getGodotVersion, normalize_version. rewrite Hout.
  replace (base +:+ ".official." +:+ hash +:+ trailing)
    with ((base +:+ ".official." +:+ hash) +:+ trailing) by by rewrite !append_assoc.
  rewrite trim_trailing by done.
  destruct (rev_last_lower_alnum (base' +:+ ".official.") hash Hlen Hall)
    as (d & r & Hrev & Hd).
  assert (JsText.trim (base +:+ ".official." +:+ hash) = base +:+ ".official." +:+ hash)
    as ->.
  { unfold base. rewrite append_cons.
    destruct (Js.rev (String c0 (base' +:+ ".official." +:+ hash))) as [| d' r'] eqn:Hrev'.
    { apply (f_equal Js.rev) in Hrev'. by rewrite rev_involutive in Hrev'. }
    apply (trim_fixed c0 _ d' r' Hc0 Hrev').
    rewrite rev_cons, <- append_assoc, Hrev, append_cons in Hrev'.
    by injection Hrev' as <- _. }
  change (base +:+ ".official." +:+ hash)
    with (base +:+ ".official" +:+ ("." +:+ hash)).
  rewrite replace_first_after by (done || reflexivity).
  change (base +:+ "" +:+ "." +:+ hash) with (base +:+ "." +:+ hash).
  rewrite replace_absent.
  - rewrite strip_commit_hash_appended by done. reflexivity.
  - apply includes_append; [done | | reflexivity].
    apply includes_short. rewrite length_append. cbn. lia.
Qed.

Lemma getGodotVersion_official_build_witness :
  getGodotVersion (fun _ => "4.0.2.stable.official.7a0977ce2" +:+ newline) []
  = (Return "4.0.2.stable", [Exec "godot" ["--version"]]).
Proof.
  exact (getGodotVersion_official_build
           (fun _ => "4.0.2.stable.official.7a0977ce2" +:+ newline) []
           "4" ".0.2.stable" "7a0977ce2" newline
           eq_refl eq_refl eq_refl eq_refl eq_refl eq_refl eq_refl).
Defined.

(** X14: for an official build without a commit hash in its [--version]
    output, the version is the base version, provided the base version
    starts with no white space, holds neither [.official] nor
    [.custom_build], and does not itself end in a dot and nine characters
    of [a-z0-9]. *)
Theorem getGodotVersion_official_without_hash version_stdout tr c0 base' trailing :
  let base := String c0 base' in
  JsText.is_whitespace c0 = false ->
  JsText.includes ".official" base = false ->
  JsText.includes ".custom_build" base = false ->
  JsText.strip_commit_hash base = base ->
  all_chars JsText.is_whitespace trailing = true ->
  version_stdout tr = base +:+ ".official" +:+ trailing ->
  getGodotVersion version_stdout tr
  = (Return base, tr ++ [Exec "godot" ["--version"]]).
Proof.
  intros base Hc0 Hoff Hcb Hstrip Hws Hout.
  unfold getGodotVersion, normalize_version. rewrite Hout.
  replace (base +:+ ".official" +:+ trailing)
    with ((base +:+ ".official") +:+ trailing) by by rewrite !append_assoc.
  rewrite trim_trailing by done.
  assert (JsText.trim (base +:+ ".official") = base +:+ ".official") as ->.
  { unfold base. rewrite append_cons.
    apply (trim_fixed c0 _ "l" (Js.rev ("." +:+ "officia") +:+ Js.rev (String c0 base')) Hc0);
      [| reflexivity].
    rewrite <- append_cons.
    change ".official" with (".officia" +:+ "l").
    rewrite <- append_assoc, rev_append. rewrite rev_append. reflexivity. }
  rewrite <- (append_nil_r (base +:+ ".official")), append_assoc.
  rewrite replace_first_after by (done || reflexivity).
  change (base +:+ "" +:+ "") with (base +:+ "").
  rewrite append_nil_r, replace_absent, Hstrip by done. reflexivity.
Qed.

Lemma getGodotVersion_official_without_hash_witness :
  getGodotVersion (fun _ => "3.5.1.stable.official" +:+ newline) []
  = (Return "3.5.1.stable", [Exec "godot" ["--version"]]).
Proof.
  exact (getGodotVersion_official_without_hash
           (fun _ => "3.5.1.stable.official" +:+ newline) []
           "3" ".5.1.stable" newline eq_refl eq_refl eq_refl eq_refl eq_refl eq_refl).
Defined.

(** X15: when the engine prints nothing, or white space only, the version
    query throws, after having run the engine once; and whenever it
    returns, the version it returns is not empty. *)
Theorem getGodotVersion_never_empty version_stdout tr :
  (all_chars JsText.is_whitespace (version_stdout tr) = true ->
   getGodotVersion version_stdout tr
   = (Throw "Godot version could not be determined.", tr ++ [Exec "godot" ["--version"]]))
  /\ (forall version tr',
        getGodotVersion version_stdout tr = (Return version, tr') ->
        version <> "" /\ tr' = tr ++ [Exec "godot" ["--version"]]).
Proof.
  split.
  - intros Hws. unfold getGodotVersion, normalize_version.
    replace (JsText.trim (version_stdout tr)) with (JsText.trim "")
      by (symmetry; exact (trim_trailing "" _ Hws)).
    reflexivity.
  - intros version tr'. unfold getGodotVersion.
    destruct (Js.truthy (normalize_version (version_stdout tr))) eqn:Ht; cbn;
      [| discriminate].
    intros [= <- <-]. split; [by apply truthy_nonempty | done].
Qed.

Lemma getGodotVersion_never_empty_witness :
  getGodotVersion (fun _ => "  " +:+ newline) []
  = (Throw "Godot version could not be determined.", [Exec "godot" ["--version"]])
  /\ ("4.0.2.stable" <> "" /\ [Exec "godot" ["--version"]] = [] ++ [Exec "godot" ["--version"]]).
Proof.
  split.
  - destruct (getGodotVersion_never_empty (fun _ => "  " +:+ newline) []) as [Hblank _].
    exact (Hblank eq_refl).
  - destruct (getGodotVersion_never_empty
                (fun _ => "4.0.2.stable.official.7a0977ce2" +:+ newline) []) as [_ Hret].
    exact (Hret "4.0.2.stable" _ eq_refl).
Defined.

(** ** Wine settings *)

Lemma configureWindowsExport_appends cfg (fs : Io.filesystem) content :
  fs !! path.resolve (cwd cfg) (editorSettingsPath cfg) = Some (Io.EFile content) ->
  configureWindowsExport cfg fs
  = (Return tt,
     <[path.resolve (cwd cfg) (editorSettingsPath cfg)
       := Io.EFile (content +:+ rcedit_line cfg +:+ wine_line cfg)]> fs).
Proof.
  intros Hfile. unfold configureWindowsExport, NodeFs.appendFileSync, NodeFs.readFileSync.
  run. fold (editorSettingsPath cfg). rewrite Hfile. rewrite !lookup_insert_eq.
  by rewrite insert_insert_eq, append_assoc.
Qed.

(** X16: with a settings file in place, configuring the Windows export
    only appends to it: the file then holds what it held, followed by the
    rcedit line and the Wine line, and nothing else on the disk changes.
    This also holds after an [addEditorSettings] that returns, which leaves
    the file as it is; and configuring a second time appends the two lines
    once more. *)
Theorem configureWindowsExport_only_appends cfg (fs : Io.filesystem) content :
  let key := path.resolve (cwd cfg) (editorSettingsPath cfg) in
  let added := rcedit_line cfg +:+ wine_line cfg in
  fs !! key = Some (Io.EFile content) ->
  configureWindowsExport cfg fs = (Return tt, <[key := Io.EFile (content +:+ added)]> fs)
  /\ (fst (addEditorSettings cfg fs) = Return tt ->
      fst (settings_with_wine cfg fs) = Return tt
      /\ snd (settings_with_wine cfg fs) !! key = Some (Io.EFile (content +:+ added)))
  /\ snd (configureWindowsExport cfg (snd (configureWindowsExport cfg fs))) !! key
     = Some (Io.EFile (content +:+ added +:+ added)).
Proof.
  intros key added Hfile.
  split; [by apply configureWindowsExport_appends |]. split.
  - intros Hadd. unfold settings_with_wine. run.
    pose proof (addEditorSettings_preserves cfg fs key _ Hfile) as Hkept.
    destruct (addEditorSettings cfg fs) as [[[] | msg] fs1]; cbn in *; [| discriminate].
    rewrite (configureWindowsExport_appends cfg fs1 content Hkept). cbn.
    split; [done | apply lookup_insert_eq].
  - rewrite (configureWindowsExport_appends cfg fs content Hfile). cbn [snd].
    rewrite (configureWindowsExport_appends cfg _ (content +:+ added))
      by apply lookup_insert_eq.
    cbn [snd]. rewrite lookup_insert_eq. by rewrite append_assoc.
Qed.

Lemma configureWindowsExport_only_appends_witness :
  let cfg := Sample.inputs false false false false in
  let key := "/home/runner/.config/godot/editor_settings-3.tres" in
  snd (settings_with_wine cfg Sample.disk) !! key
  = Some (Io.EFile ("mine" +:+ rcedit_line cfg +:+ wine_line cfg)).
Proof.
  intros cfg key.
  assert (Sample.disk !! path.resolve (cwd cfg) (editorSettingsPath cfg)
          = Some (Io.EFile "mine")) as Hfile by (vm_compute; reflexivity).
  destruct (configureWindowsExport_only_appends cfg Sample.disk "mine" Hfile)
    as (_ & Hseq & _).
  destruct Hseq as [_ Hkey]; [vm_compute; reflexivity | exact Hkey].
Defined.

(** ** Packaging beyond the claims *)





(** ** The bundle pattern *)

(** X18: the test for an export path that ends in [.app] holds exactly of
    the paths that end in [app] after one more character that is not a
    line terminator, whichever character that is: a dot is not asked for. *)
Theorem endsInDotApp_iff br :
  File.endsInDotApp br = true
  <-> exists pre c,
        export_path (preset br) = pre +:+ String c "app"
        /\ Js.is_line_terminator c = false.
Proof.
  unfold File.endsInDotApp, Js.match_dot_app_end. split.
  - intros Hmatch.
    destruct (Js.rev (export_path (preset br)))
      as [| p3 [| p2 [| a [| d rest]]]] eqn:Hrev; try discriminate.
    apply andb_true_iff in Hmatch as [Hmatch Hd].
    apply andb_true_iff in Hmatch as [Hmatch H3].
    apply andb_true_iff in Hmatch as [Ha H2].
    apply Ascii.eqb_eq in Ha, H2, H3. subst.
    exists (Js.rev rest), d. split; [| by apply negb_true_iff].
    apply (f_equal Js.rev) in Hrev. rewrite rev_involutive in Hrev. rewrite Hrev.
    rewrite !rev_cons, !append_assoc. reflexivity.
  - intros (pre & c & -> & Hc). rewrite rev_append.
    change (Js.rev (String c "app")) with (String "p" (String "p" (String "a" (String c "")))).
    rewrite !append_cons. cbn. by rewrite Hc.
Qed.

Lemma endsInDotApp_iff_witness :
  File.endsInDotApp (Sample.artifact
                       {| name := "Mac"; platform := "Mac OSX"; export_path := "build/snapp" |}
                       None) = true.
Proof.
  apply endsInDotApp_iff. exists "build/s", "n"%char. split; reflexivity.
Defined.

(** ** A build directory that cannot be created *)

(** X19: when the build directory of a preset cannot be created, after the
    presets before it went through, the loop ends in the error of
    [io.mkdirP], and the attempt is the last thing done: the engine is
    invoked neither for this preset nor for any after it, and no artifact
    comes back.  This is what happens to a preset whose sanitized name is
    the file name an earlier preset was exported to in the builds root. *)
Theorem doExport_loop_stops_at_blocked_directory cfg env pre p post acc tr acc1 tr1 base msg :
  doExport_loop cfg env pre acc tr = (Return acc1, tr1) ->
  executablePath_of cfg p = Some base ->
  mkdirP_error env tr1 (buildDir_of cfg p) = Some msg ->
  doExport_loop cfg env (pre ++ p :: post) acc tr
  = (Throw msg, tr1 ++ [MkdirP (buildDir_of cfg p)])
  /\ godot_calls (tr1 ++ [MkdirP (buildDir_of cfg p)]) = godot_calls tr1.
Proof.
  intros Hpre Hexe Hdir. split.
  - by rewrite doExport_loop_app, Hpre, (doExport_loop_export _ _ _ _ _ _ _ Hexe), Hdir.
  - rewrite godot_calls_app. cbn. by rewrite app_nil_r.
Qed.

Lemma doExport_loop_stops_at_blocked_directory_witness :
  let cfg := Sample.inputs false false false false in
  let builds := "/home/runner/.local/share/godot/builds" in
  doExport_loop cfg Collision.env [Collision.dots; Collision.second; Sample.linux] [] []
  = (Throw ("EEXIST: file already exists, mkdir '" +:+ builds +:+ "/game.x86_64'"),
     [MkdirP builds;
      Exec "godot" ["/work/game/project.godot"; "--export"; "..";
                    builds +:+ "/game.x86_64"]]
     ++ [MkdirP (builds +:+ "/game.x86_64")]).
Proof.
  intros cfg builds.
  destruct (doExport_loop_stops_at_blocked_directory cfg Collision.env
              [Collision.dots] Collision.second [Sample.linux] [] [] _ _
              (builds +:+ "/game.x86_64/game.x86_64") _ eq_refl eq_refl eq_refl)
    as [Hrun _].
  exact Hrun.
Defined.
